(** * Greenlight: request pipeline, client registry and graceful shutdown

    A shallow embedding of [cmd/api/middleware.go], [cmd/api/routes.go] and
    [cmd/api/server.go], with the properties of the specification stated
    and proved over it.

    Conventions.
    - [time.Time] and [time.Duration] are integers counting nanoseconds
      ([Z]; the int64 range is not modelled).
    - [float64] quantities of the rate limiter are exact rationals ([Q]).
    - A Go map is a [gmap]; the request context is a record field.
    - A handler is a state transformer that either returns or panics. *)

From Stdlib Require Import ZArith QArith Qminmax Lqa Lia Ascii String.
From Stdlib Require Import DecimalString DecimalPos DecimalZ.
From stdpp Require Import gmap strings list fin_maps pretty.

Local Open Scope Z_scope.

(** ** Time *)

Definition Time := Z.
Definition Duration := Z.

Definition Second : Duration := 1000000000.
Definition Minute : Duration := 60 * Second.

(** [d.Seconds()]: a duration as a rational number of seconds. *)
Definition seconds (d : Duration) : Q := (inject_Z d * (1 # 1000000000))%Q.

(** ** The token bucket limiter *)

Module Limiter.

(** Modelled from the spec: [rate.Limiter] of golang.org/x/time/rate is
    an imported package and not part of the sources; the bucket follows
    section 4.1 of the specification and the comment in front of
    [globalRateLimit]: a bucket of [capacity] tokens, initially full,
    refilled at [refillRatePerSecond] tokens per second and capped at
    [capacity]. *)
Record t := mk {
  capacity : Z;
  refillRatePerSecond : Q;
  tokens : Q;
  lastRefill : Time
}.

(** [rate.NewLimiter(r, b)], created at time [now] with a full bucket. *)
Definition NewLimiter (r : Q) (b : Z) (now : Time) : t :=
  {| capacity := b; refillRatePerSecond := r;
     tokens := inject_Z b; lastRefill := now |}.

(** Tokens after refilling for the time elapsed since [lastRefill],
    clamped to the capacity. *)
Definition refill (now : Time) (l : t) : Q :=
  let filled := (tokens l + refillRatePerSecond l * seconds (now - lastRefill l)%Z)%Q in
  if Qle_bool filled (inject_Z (capacity l)) then filled else inject_Z (capacity l).

(** [Allow()] at time [now]: refill, then take one token if there is one. *)
Definition Allow (now : Time) (l : t) : bool * t :=
  let tk := refill now l in
  if Qle_bool 1 tk
  then (true, {| capacity := capacity l; refillRatePerSecond := refillRatePerSecond l;
                 tokens := (tk - 1)%Q; lastRefill := now |})
  else (false, {| capacity := capacity l; refillRatePerSecond := refillRatePerSecond l;
                  tokens := tk; lastRefill := now |}).

(** A sequence of [Allow()] calls at the given times, each paired with
    its result. *)
Fixpoint calls (l : t) (times : list Time) : list (Time * bool) :=
  match times with
  | [] => []
  | now :: rest => let '(ok, l') := Allow now l in (now, ok) :: calls l' rest
  end.





End Limiter.

(** ** HTTP messages *)

Module Http.

(** [http.Header]: canonical field name to the values of the field. *)
Abbreviation Header := (gmap string (list string)).

(** [h.Get(key)]: the first value of the field, the empty string when
    the field is absent or has no value. *)
Definition Get (h : Header) (key : string) : string :=
  match h !! key with
  | Some (v :: _) => v
  | _ => EmptyString
  end.

(** [h.Set(key, value)] replaces whatever the field held. *)
Definition Set_ (key value : string) (h : Header) : Header :=
  <[key := [value]]> h.

(** [strings.Split(s, sep)] for a one-character separator. *)
Fixpoint Split (s : string) (sep : ascii) : list string :=
  match s with
  | EmptyString => [EmptyString]
  | String c rest =>
      if Ascii.eqb c sep then EmptyString :: Split rest sep
      else match Split rest sep with
           | [] => [String c EmptyString]
           | p :: ps => String c p :: ps
           end
  end.

(** [strings.ContainsRune], for one-byte characters. *)
Fixpoint contains (c : ascii) (s : string) : bool :=
  match s with
  | EmptyString => false
  | String x rest => Ascii.eqb x c || contains c rest
  end.

(** Modelled from the spec: [internal/data/users.go] is not part of the
    sources. A request identity is the [AnonymousUser] sentinel or a user
    record from storage (section 3, RequestIdentity); of the record only
    the fields the middleware reads are kept. The sentinel is the zero
    user: id 0, not activated. *)
Record User := mkUser { ID : Z; Activated : bool }.

Inductive UserRef :=
| AnonymousUser
| UserPtr (u : User).

Definition IsAnonymous (u : UserRef) : bool :=
  match u with AnonymousUser => true | UserPtr _ => false end.

Definition userActivated (u : UserRef) : bool :=
  match u with AnonymousUser => false | UserPtr u => Activated u end.

Definition userID (u : UserRef) : Z :=
  match u with AnonymousUser => 0 | UserPtr u => ID u end.

(** [*http.Request]: the parts the middleware reads. [ctxUser] is the
    user value of the request context, if one was attached. *)
Record Request := mkRequest {
  Method : string;
  ReqHeader : Header;
  RemoteAddr : string;
  ctxUser : option UserRef
}.

(** [contextSetUser] returns a copy of the request with the user
    attached to its context. *)
Definition contextSetUser (r : Request) (u : UserRef) : Request :=
  {| Method := Method r; ReqHeader := ReqHeader r;
     RemoteAddr := RemoteAddr r; ctxUser := Some u |}.

(** Modelled from the spec: [cmd/api/errors.go] is not part of the
    sources. Every client-facing rejection is a structured body with a
    stable category (section 7); the categories are those of the taxonomy,
    a contained handler fault and a resolution failure both surfacing as
    the generic server fault. *)
Inductive Category :=
| AdmissionRejected
| InvalidCredential
| ServerFault
| AuthenticationRequired
| AccountNotActivated
| PermissionDenied.

Inductive Chunk :=
| ErrorBody (c : Category)
| Bytes (b : string).

(** [http.ResponseWriter]: the header map, the status code of the first
    [WriteHeader] (if any), and what was written to the body. *)
Record ResponseWriter := mkWriter {
  RespHeader : Header;
  Status : option Z;
  Body : list Chunk
}.

Definition newWriter : ResponseWriter :=
  {| RespHeader := ∅; Status := None; Body := [] |}.

Definition setHeader (key value : string) (w : ResponseWriter) : ResponseWriter :=
  {| RespHeader := Set_ key value (RespHeader w); Status := Status w; Body := Body w |}.

(** Only the first [WriteHeader] counts; later ones are dropped. *)
Definition WriteHeader (code : Z) (w : ResponseWriter) : ResponseWriter :=
  match Status w with
  | Some _ => w
  | None => {| RespHeader := RespHeader w; Status := Some code; Body := Body w |}
  end.

(** [Write] sends the header with status 200 if none was sent yet. *)
Definition Write (c : Chunk) (w : ResponseWriter) : ResponseWriter :=
  let w' := WriteHeader 200 w in
  {| RespHeader := RespHeader w'; Status := Status w'; Body := Body w' ++ [c] |}.

(** Modelled from the spec: [errorResponse] of [cmd/api/errors.go], not
    part of the sources: write the status, then the structured body. *)
Definition errorResponse (status : Z) (c : Category) (w : ResponseWriter) : ResponseWriter :=
  Write (ErrorBody c) (WriteHeader status w).

Definition StatusOK : Z := 200.
Definition StatusUnauthorized : Z := 401.
Definition StatusForbidden : Z := 403.
Definition StatusTooManyRequests : Z := 429.
Definition StatusInternalServerError : Z := 500.
Definition MethodOptions : string := "OPTIONS".

End Http.

(** ** The application and its middleware *)

Module Api.

Import Http.

(** The [limiter] and [cors] parts of [config]. *)
Record config := mkConfig {
  limiter_rps : Q;
  limiter_burst : Z;
  limiter_enabled : bool;
  cors_trustedOrigins : list string
}.

(** What a storage lookup returns: the value, [data.ErrRecordNotFound],
    or any other error. *)
Inductive lookup (A : Type) :=
| Found (a : A)
| ErrRecordNotFound
| OtherError (detail : string).
Arguments Found {A} a.
Arguments ErrRecordNotFound {A}.
Arguments OtherError {A} detail.

(** [application]: the configuration and the collaborators the
    middleware calls. [internal/data], [internal/validator] and the
    realip package are not part of the sources and are taken as they
    come: [ValidateTokenPlaintext] tells whether the validator is still
    valid after its checks, [realip_FromRequest] is the client address. *)
Record application := mkApp {
  cfg : config;
  Users_GetForToken : string -> string -> lookup User;
  Permissions_GetAllForUser : Z -> lookup (list string);
  ValidateTokenPlaintext : string -> bool;
  realip_FromRequest : Request -> string
}.

Definition ScopeAuthentication : string := "authentication".

(** [Permissions.Include(code)]. *)
Definition Include (permissions : list string) (code : string) : bool :=
  bool_decide (code ∈ permissions).

(** An entry of the [clients] map of [rateLimit]. *)
Record client := mkClient {
  limiter : Limiter.t;
  lastSeen : Time
}.

(** The stages of the chain built by [routes], and the calls to the
    storage collaborators; both are recorded in the order they happen. *)
Inductive Stage :=
| Metrics | RecoverPanic | EnableCORS | RateLimit | Authenticate | Router
| Guarded.

Inductive Event :=
| Enter (st : Stage)
| GetForToken (scope token : string)
| GetAllForUser (id : Z).

(** What a request runs against: its response writer, the clock, the
    expvar counters published by [metrics], the [clients] map closed over by
    [rateLimit], and the record of stages entered and collaborators
    called (the last is not program state). *)
Record State := mkState {
  w : ResponseWriter;
  now : Time;
  totalRequestsReceived : Z;
  totalResponsesSent : Z;
  totalProcessingTimeMicroseconds : Z;
  totalResponsesSentbyStatus : gmap string Z;
  clients : gmap string client;
  trace : list Event
}.

Definition with_w (f : ResponseWriter -> ResponseWriter) (s : State) : State :=
  mkState (f (w s)) (now s) (totalRequestsReceived s) (totalResponsesSent s)
    (totalProcessingTimeMicroseconds s) (totalResponsesSentbyStatus s)
    (clients s) (trace s).

Definition with_clients (c : gmap string client) (s : State) : State :=
  mkState (w s) (now s) (totalRequestsReceived s) (totalResponsesSent s)
    (totalProcessingTimeMicroseconds s) (totalResponsesSentbyStatus s)
    c (trace s).

Definition record (e : Event) (s : State) : State :=
  mkState (w s) (now s) (totalRequestsReceived s) (totalResponsesSent s)
    (totalProcessingTimeMicroseconds s) (totalResponsesSentbyStatus s)
    (clients s) (trace s ++ [e]).

(** A call of [ServeHTTP] returns or panics with a value. *)
Inductive Outcome :=
| Returned
| Panicked (v : string).

Definition Handler := Request -> State -> Outcome * State.

(** A handler whose code is not modelled (the router with the business
    handlers behind it): it sees the request and the response writer,
    takes some time, and returns or panics. *)
Definition Opaque := Request -> ResponseWriter -> Outcome * ResponseWriter * N.

Definition serveOpaque (tag : Stage) (h : Opaque) : Handler :=
  fun r s =>
    let s := record (Enter tag) s in
    let '(o, w', d) := h r (w s) in
    (o, mkState w' (now s + Z.of_N d) (totalRequestsReceived s)
          (totalResponsesSent s) (totalProcessingTimeMicroseconds s)
          (totalResponsesSentbyStatus s) (clients s) (trace s)).

(** *** Response helpers

    Modelled from the spec: the helpers of [cmd/api/errors.go] are not
    part of the sources. Each sends a structured rejection of its
    category; the status codes are those named in the comments of
    [middleware.go]. *)
Definition serverErrorResponse (s : State) : State :=
  with_w (errorResponse StatusInternalServerError ServerFault) s.
Definition rateLimitExceededResponse (s : State) : State :=
  with_w (errorResponse StatusTooManyRequests AdmissionRejected) s.
Definition invalidAuthenticationTokenResponse (s : State) : State :=
  with_w (errorResponse StatusUnauthorized InvalidCredential) s.
Definition authenticationRequiredResponse (s : State) : State :=
  with_w (errorResponse StatusUnauthorized AuthenticationRequired) s.
Definition inactiveAccountResponse (s : State) : State :=
  with_w (errorResponse StatusForbidden AccountNotActivated) s.
Definition notPermittedResponse (s : State) : State :=
  with_w (errorResponse StatusForbidden PermissionDenied) s.

(** *** recoverPanic *)

(** The deferred function runs when [next] panics: it sets a header and
    sends the server error response; the panic stops there. *)
Definition recoverPanic (app : application) (next : Handler) : Handler :=
  fun r s =>
    let s := record (Enter RecoverPanic) s in
    match next r s with
    | (Returned, s') => (Returned, s')
    | (Panicked err, s') =>
        let s' := with_w (setHeader "Connection:" "close") s' in
        (Returned, serverErrorResponse s')
    end.

(** *** rateLimit *)

Definition staleness : Duration := 3 * Minute.

(** One pass of the background goroutine over the map, under the mutex.
    [time.Since] is evaluated for each entry as the loop reaches it:
    [clock ip] is the clock reading at the entry of [ip]. *)
Definition sweep (clock : string -> Time) (cl : gmap string client) : gmap string client :=
  filter (fun e : string * client => ¬ (clock e.1 - lastSeen e.2 > staleness)) cl.

(** The section of the handler that holds the mutex: find or create the
    entry of [ip], stamp it, and ask its limiter. *)
Definition allowClient (app : application) (ip : string) (t : Time)
    (cl : gmap string client) : bool * gmap string client :=
  let c := match cl !! ip with
           | Some c => c
           | None => {| limiter := Limiter.NewLimiter (limiter_rps (cfg app))
                                     (limiter_burst (cfg app)) t;
                        lastSeen := 0 |}
           end in
  let c := {| limiter := limiter c; lastSeen := t |} in
  let '(ok, l') := Limiter.Allow t (limiter c) in
  (ok, <[ip := {| limiter := l'; lastSeen := lastSeen c |}]> cl).

Definition rateLimit (app : application) (next : Handler) : Handler :=
  fun r s =>
    let s := record (Enter RateLimit) s in
    if limiter_enabled (cfg app) then
      let ip := realip_FromRequest app r in
      let '(ok, cl) := allowClient app ip (now s) (clients s) in
      let s := with_clients cl s in
      if negb ok then (Returned, rateLimitExceededResponse s)
      else next r s
    else next r s.

(** What reaches the [clients] map, in the order the mutex serialises
    it: a request from [ip] arriving at time [t], or a pass of the sweep. *)
Inductive Access :=
| Arrival (ip : string) (t : Time)
| Tick (clock : string -> Time).

(** The admission decisions handed to the requests of [who], in order. *)
Fixpoint decisionsFor (app : application) (who : string)
    (cl : gmap string client) (accesses : list Access) : list bool :=
  match accesses with
  | [] => []
  | Arrival ip t :: rest =>
      let '(ok, cl') := allowClient app ip t cl in
      if String.eqb ip who then ok :: decisionsFor app who cl' rest
      else decisionsFor app who cl' rest
  | Tick clock :: rest => decisionsFor app who (sweep clock cl) rest
  end.

(** The same history with the requests of [who] left out. *)
Fixpoint without (who : string) (accesses : list Access) : list Access :=
  match accesses with
  | [] => []
  | Arrival ip t :: rest =>
      if String.eqb ip who then without who rest
      else Arrival ip t :: without who rest
  | Tick clock :: rest => Tick clock :: without who rest
  end.

(** A handler never takes an entry out of the [clients] map. *)
Definition keepsClients (h : Handler) : Prop :=
  forall r s ip, is_Some (clients s !! ip) -> is_Some (clients (h r s).2 !! ip).

(** *** authenticate *)

Definition authenticate (app : application) (next : Handler) : Handler :=
  fun r s =>
    let s := record (Enter Authenticate) s in
    let s := with_w (setHeader "Vary" "Authorization") s in
    let authorizationHeader := Get (ReqHeader r) "Authorization" in
    if String.eqb authorizationHeader EmptyString then
      next (contextSetUser r AnonymousUser) s
    else
      match Split authorizationHeader " " with
      | [scheme; token] =>
          if negb (String.eqb scheme "Bearer") then
            (Returned, invalidAuthenticationTokenResponse s)
          else if negb (ValidateTokenPlaintext app token) then
            (Returned, invalidAuthenticationTokenResponse s)
          else
            let s := record (GetForToken ScopeAuthentication token) s in
            match Users_GetForToken app ScopeAuthentication token with
            | ErrRecordNotFound => (Returned, invalidAuthenticationTokenResponse s)
            | OtherError _ => (Returned, serverErrorResponse s)
            | Found user => next (contextSetUser r (UserPtr user)) s
            end
      | _ => (Returned, invalidAuthenticationTokenResponse s)
      end.

(** The state in which [authenticate] decides: entered, with the Vary
    field set; and the state after it has asked storage for [token]. *)
Definition authEntered (s : State) : State :=
  with_w (setHeader "Vary" "Authorization") (record (Enter Authenticate) s).

Definition authLookedUp (token : string) (s : State) : State :=
  record (GetForToken ScopeAuthentication token) (authEntered s).

(** The header value is not the scheme Bearer, one space, and a token
    without spaces that passes the structural validation. *)
Definition malformedCredential (app : application) (h : string) : Prop :=
  forall token, h = ("Bearer " ++ token)%string -> contains " " token = false ->
                ValidateTokenPlaintext app token = false.

(** What [authenticate] does once storage has answered. *)
Definition afterLookup (app : application) (next : Handler) (r : Request)
    (token : string) (s : State) : Outcome * State :=
  match Users_GetForToken app ScopeAuthentication token with
  | ErrRecordNotFound =>
      (Returned, invalidAuthenticationTokenResponse (authLookedUp token s))
  | OtherError _ => (Returned, serverErrorResponse (authLookedUp token s))
  | Found user => next (contextSetUser r (UserPtr user)) (authLookedUp token s)
  end.

(** The case analysis of the specification, word for word: no
    Authorization field, anonymous; a field that is present but malformed,
    rejected without a lookup; otherwise by the answer of storage. *)
Definition resolvesAsStated (app : application) (next : Handler)
    (r : Request) (s : State) : Prop :=
  let h := Get (ReqHeader r) "Authorization" in
  (ReqHeader r !! "Authorization" = None ->
     authenticate app next r s = next (contextSetUser r AnonymousUser) (authEntered s)) /\
  (is_Some (ReqHeader r !! "Authorization") -> malformedCredential app h ->
     authenticate app next r s
     = (Returned, invalidAuthenticationTokenResponse (authEntered s))) /\
  (forall token, h = ("Bearer " ++ token)%string -> contains " " token = false ->
     ValidateTokenPlaintext app token = true ->
     authenticate app next r s = afterLookup app next r token s).

(** *** Guards in front of single handlers *)

(** Modelled from the spec: [contextGetUser] of [cmd/api/context.go] is
    not part of the sources. It reads the identity that [authenticate]
    attached (section 4.3); a request without one never passed
    [authenticate], and reading it panics. *)
Definition contextGetUser (r : Request) : option UserRef := ctxUser r.

Definition missingUser : string := "missing user value in request context".

Definition requireAuthenticatedUser (app : application) (next : Handler) : Handler :=
  fun r s =>
    match contextGetUser r with
    | None => (Panicked missingUser, s)
    | Some user =>
        if IsAnonymous user then (Returned, authenticationRequiredResponse s)
        else next r s
    end.

Definition requireActivatedUser (app : application) (next : Handler) : Handler :=
  let fn : Handler := fun r s =>
    match contextGetUser r with
    | None => (Panicked missingUser, s)
    | Some user =>
        if negb (userActivated user) then (Returned, inactiveAccountResponse s)
        else next r s
    end in
  requireAuthenticatedUser app fn.

Definition requirePermissions (app : application) (code : string) (next : Handler) : Handler :=
  let fn : Handler := fun r s =>
    match contextGetUser r with
    | None => (Panicked missingUser, s)
    | Some user =>
        let s := record (GetAllForUser (userID user)) s in
        match Permissions_GetAllForUser app (userID user) with
        | Found permissions =>
            if negb (Include permissions code) then (Returned, notPermittedResponse s)
            else next r s
        | _ => (Returned, serverErrorResponse s)
        end
    end in
  requireActivatedUser app fn.

(** *** enableCORS *)

(** The request names an origin and the loop over the trusted origins
    finds it. *)
Definition trustedOrigin (app : application) (r : Request) : bool :=
  let origin := Get (ReqHeader r) "Origin" in
  negb (String.eqb origin EmptyString)
  && existsb (String.eqb origin) (cors_trustedOrigins (cfg app)).

(** Method OPTIONS with an Access-Control-Request-Method field. *)
Definition isPreflight (r : Request) : bool :=
  String.eqb (Method r) MethodOptions
  && negb (String.eqb (Get (ReqHeader r) "Access-Control-Request-Method") EmptyString).

Definition enableCORS (app : application) (next : Handler) : Handler :=
  fun r s =>
    let s := record (Enter EnableCORS) s in
    let s := with_w (setHeader "Vary" "Origin") s in
    let s := with_w (setHeader "Vary" "Access-Control-Request-Method") s in
    let origin := Get (ReqHeader r) "Origin" in
    if trustedOrigin app r then
      let s := with_w (setHeader "Access-Control-Allow-Origin" origin) s in
      if isPreflight r then
        let s := with_w (setHeader "Access-Control-Allow-Methods" "OPTIONS, PUT, PATCH, DELETE") s in
        let s := with_w (setHeader "Access-Control-Allow-Headers" "Authorization, Content-Type") s in
        let s := with_w (setHeader "Access-Control-Max-Age" "60") s in
        (Returned, with_w (WriteHeader StatusOK) s)
      else next r s
    else next r s.

(** *** metrics *)

(** [expvar.Map.Add(key, delta)]. *)
Definition mapAdd (key : string) (delta : Z) (m : gmap string Z) : gmap string Z :=
  <[key := default 0 (m !! key) + delta]> m.

(** [strconv.Itoa]. *)
Definition Itoa (n : Z) : string := pretty n.

(** [d.Microseconds()]. *)
Definition Microseconds (d : Duration) : Z := Z.quot d 1000.

(** The accounting after [httpsnoop.CaptureMetrics] has returned with the
    status code and the duration it captured. *)
Definition account (code : Z) (duration : Duration) (s : State) : State :=
  mkState (w s) (now s) (totalRequestsReceived s)
    (totalResponsesSent s + 1)
    (totalProcessingTimeMicroseconds s + Microseconds duration)
    (mapAdd (Itoa code) 1 (totalResponsesSentbyStatus s))
    (clients s) (trace s).

(** [CaptureMetrics] does not recover: a panic of [next] passes through
    and the accounting after it is skipped. The captured code is that of
    the first [WriteHeader], 200 when there was none. *)
Definition metrics (app : application) (next : Handler) : Handler :=
  fun r s =>
    let s := record (Enter Metrics) s in
    let s := mkState (w s) (now s) (totalRequestsReceived s + 1)
               (totalResponsesSent s) (totalProcessingTimeMicroseconds s)
               (totalResponsesSentbyStatus s) (clients s) (trace s) in
    let start := now s in
    match next r s with
    | (Panicked v, s') => (Panicked v, s')
    | (Returned, s') =>
        (Returned, account (default StatusOK (Status (w s'))) (now s' - start) s')
    end.

(** *** routes *)

Definition routes (app : application) (router : Opaque) : Handler :=
  metrics app (recoverPanic app (enableCORS app (rateLimit app
    (authenticate app (serveOpaque Router router))))).

(** The stages among the recorded events, and the order in which
    [routes] nests them, outermost first. *)
Definition stages (tr : list Event) : list Stage :=
  omap (fun e => match e with Enter st => Some st | _ => None end) tr.

Definition chainOrder : list Stage :=
  [Metrics; RecoverPanic; EnableCORS; RateLimit; Authenticate; Router].

(** How a stage relates its own record of events to that of the handler
    it wraps: it stops after entering, or it enters and hands over to
    [next], whose record is what remains. *)
Definition stops (st : Stage) (h : Handler) (r : Request) (s : State) : Prop :=
  exists pre, stages pre = [st] /\ trace (h r s).2 = trace s ++ pre.

Definition forwards (st : Stage) (h next : Handler) (r : Request) (s : State) : Prop :=
  exists r' s' pre, stages pre = [st] /\ trace s' = trace s ++ pre /\
    trace (h r s).2 = trace (next r' s').2.

(** A handler enters at least the first [k] stages of [order], in that
    order, and nothing else. *)
Definition runs (k : nat) (h : Handler) (order : list Stage) : Prop :=
  forall r s, exists evs n,
    trace (h r s).2 = trace s ++ evs /\ (k <= n)%nat /\ stages evs = take n order.

(** A request arrives: fresh response writer, the shared state as it is. *)
Definition arrive (s : State) : State :=
  mkState newWriter (now s) (totalRequestsReceived s) (totalResponsesSent s)
    (totalProcessingTimeMicroseconds s) (totalResponsesSentbyStatus s)
    (clients s) [].

End Api.

(** ** A sample deployment

    The default configuration of [main] (2 requests per second, bursts of
    4, limiter on) with one trusted origin, a store holding one activated
    and one not yet activated user, and a validator that accepts tokens of
    26 characters. Used to run the definitions on concrete requests. *)

Module Sample.

Import Http Api.

Definition aliceToken : string := "ABCDEFGHIJKLMNOPQRSTUVWXYZ".
Definition bobToken : string := "BBBBBBBBBBBBBBBBBBBBBBBBBB".
Definition strayToken : string := "ZZZZZZZZZZZZZZZZZZZZZZZZZZ".
Definition brokenToken : string := "EEEEEEEEEEEEEEEEEEEEEEEEEE".

Definition alice : User := {| ID := 7; Activated := true |}.
Definition bob : User := {| ID := 8; Activated := false |}.

Definition app : application :=
  {| cfg := {| limiter_rps := 2; limiter_burst := 4; limiter_enabled := true;
               cors_trustedOrigins := ["https://app.example"] |};
     Users_GetForToken := fun scope token =>
       if String.eqb token aliceToken then Found alice
       else if String.eqb token bobToken then Found bob
       else if String.eqb token brokenToken then OtherError "connection refused"
       else ErrRecordNotFound;
     Permissions_GetAllForUser := fun id =>
       if Z.eqb id 7 then Found ["movies:read"] else Found [];
     ValidateTokenPlaintext := fun token => Nat.eqb (String.length token) 26;
     realip_FromRequest := RemoteAddr |}.

Definition get (fields : list (string * list string)) (ip : string) : Request :=
  {| Method := "GET"; ReqHeader := list_to_map fields;
     RemoteAddr := ip; ctxUser := None |}.

Definition idle : State :=
  {| w := newWriter; now := 0; totalRequestsReceived := 0;
     totalResponsesSent := 0; totalProcessingTimeMicroseconds := 0;
     totalResponsesSentbyStatus := ∅; clients := ∅; trace := [] |}.

(** The state in which the client at 10.0.0.1 has just used up its burst. *)
Definition exhausted : State :=
  with_clients
    {[ "10.0.0.1" := {| limiter := Limiter.mk 4 2 0 0; lastSeen := 0 |} ]} idle.

Definition okRouter : Opaque :=
  fun r w => (Returned, Write (Bytes "ok") w, 1500%N).

Definition panickingRouter : Opaque :=
  fun r w => (Panicked "runtime error: index out of range", w, 0%N).

End Sample.

(** ** Serving and shutting down

    [serve] runs two threads: the caller, which sits in [ListenAndServe]
    and then waits on the [shutdownError] channel, and the goroutine that
    waits for a signal, shuts the server down, waits for the background
    tasks and reports on that channel. The two are modelled as a
    transition system whose steps are the points at which one of them (or
    the environment: a signal, a handler, a background task) moves. *)

Module Lifecycle.

(** The signals of the table at the end of [server.go]. *)
Inductive Signal := SIGINT | SIGQUIT | SIGKILL | SIGTERM.

(** The signals named in the call of [signal.Notify]. *)
Definition notified (sig : Signal) : bool :=
  match sig with SIGINT | SIGTERM => true | _ => false end.

(** A Go [error]: [None] is nil. *)
Definition error := option string.

(** Where the caller of [serve] is. *)
Inductive MainPC :=
| InListenAndServe
| AwaitShutdownError
| ServeReturned (err : error).

(** Where the goroutine is. *)
Inductive GoPC :=
| Registering
| AwaitSignal
| InShutdown
| SendErr (err : string)
| InWait
| SendNil
| Finished.

Record State := mkState {
  mainpc : MainPC;
  gopc : GoPC;
  (** the [quit] channel, of capacity 1 *)
  quit : list Signal;
  (** the variable [s] of the goroutine *)
  caught : option Signal;
  (** how often [srv.Shutdown] has been called *)
  shutdownCalls : nat;
  (** request handlers may still be running *)
  handlersLive : bool;
  (** the counter of [app.wg] *)
  wg : nat
}.

Definition init : State :=
  {| mainpc := InListenAndServe; gopc := Registering; quit := [];
     caught := None; shutdownCalls := 0; handlersLive := true; wg := 0 |}.

Inductive Event :=
(** a signal is relayed to [quit] *)
| Deliver (sig : Signal)
(** the goroutine has made [quit] and called [signal.Notify] *)
| Notify
(** [s := <-quit], after which [srv.Shutdown] is called *)
| ReceiveSignal
(** [srv.Shutdown] returns *)
| ShutdownReturns (err : error)
(** [app.wg.Wait()] returns *)
| WaitReturns
(** a value passes through [shutdownError] *)
| Handoff
(** [srv.ListenAndServe] returns [http.ErrServerClosed] *)
| ListenClosed
(** [srv.ListenAndServe] returns another error *)
| ListenFails (err : string)
(** a handler starts a background task *)
| Spawn
(** a background task completes *)
| TaskDone.

Definition set_main (pc : MainPC) (s : State) : State :=
  mkState pc (gopc s) (quit s) (caught s) (shutdownCalls s) (handlersLive s) (wg s).
Definition set_go (pc : GoPC) (s : State) : State :=
  mkState (mainpc s) pc (quit s) (caught s) (shutdownCalls s) (handlersLive s) (wg s).
Definition set_quit (q : list Signal) (s : State) : State :=
  mkState (mainpc s) (gopc s) q (caught s) (shutdownCalls s) (handlersLive s) (wg s).
Definition set_wg (n : nat) (s : State) : State :=
  mkState (mainpc s) (gopc s) (quit s) (caught s) (shutdownCalls s) (handlersLive s) n.

(** One step; [None] when the event cannot happen in the state.

    - A signal reaches the program only if it is one of those notified
      and [Notify] has been called; it is put in [quit] if there is room
      and dropped otherwise ([signal.Notify] never blocks). Any other
      signal keeps its default disposition and is no event of [serve].
    - [ListenAndServe] returns [ErrServerClosed] only once [Shutdown] has
      been called.
    - When [Shutdown] returns nil every connection has been closed, and
      no handler runs any more.
    - Modelled from the spec: [app.background] of [cmd/api/helpers.go] is
      not part of the sources; a task is counted in [app.wg] when a
      handler starts it and counted out when it completes (section 3,
      BackgroundTaskSet).
    - [shutdownError] is unbuffered: a send and the receive of the caller
      happen together. *)
Definition step (s : State) (e : Event) : option State :=
  match e with
  | Deliver sig =>
      match gopc s with
      | Registering => None
      | _ => if notified sig
             then Some (match quit s with [] => set_quit [sig] s | _ => s end)
             else None
      end
  | Notify =>
      match gopc s with
      | Registering => Some (set_go AwaitSignal s)
      | _ => None
      end
  | ReceiveSignal =>
      match gopc s, quit s with
      | AwaitSignal, sig :: rest =>
          Some (mkState (mainpc s) InShutdown rest (Some sig)
                  (S (shutdownCalls s)) (handlersLive s) (wg s))
      | _, _ => None
      end
  | ShutdownReturns err =>
      match gopc s, err with
      | InShutdown, Some e => Some (set_go (SendErr e) s)
      | InShutdown, None =>
          Some (mkState (mainpc s) InWait (quit s) (caught s)
                  (shutdownCalls s) false (wg s))
      | _, _ => None
      end
  | WaitReturns =>
      match gopc s, wg s with
      | InWait, O => Some (set_go SendNil s)
      | _, _ => None
      end
  | Handoff =>
      match mainpc s, gopc s with
      | AwaitShutdownError, SendErr e =>
          Some (set_main (ServeReturned (Some e)) (set_go InWait s))
      | AwaitShutdownError, SendNil =>
          Some (set_main (ServeReturned None) (set_go Finished s))
      | _, _ => None
      end
  | ListenClosed =>
      match mainpc s, shutdownCalls s with
      | InListenAndServe, S _ => Some (set_main AwaitShutdownError s)
      | _, _ => None
      end
  | ListenFails err =>
      match mainpc s with
      | InListenAndServe => Some (set_main (ServeReturned (Some err)) s)
      | _ => None
      end
  | Spawn =>
      if handlersLive s then Some (set_wg (S (wg s)) s) else None
  | TaskDone =>
      match wg s with
      | S n => Some (set_wg n s)
      | O => None
      end
  end.

(** A run: the events in order, from a state. *)
Fixpoint run (s : State) (evs : list Event) : option State :=
  match evs with
  | [] => Some s
  | e :: rest => match step s e with
                 | Some s' => run s' rest
                 | None => None
                 end
  end.

(** The success outcome, Completed: [serve] has returned nil. *)
Definition completed (s : State) : Prop := mainpc s = ServeReturned None.

(** The signals relayed in the course of a run. *)
Definition delivered (evs : list Event) : list Signal :=
  omap (fun e => match e with Deliver sig => Some sig | _ => None end) evs.

(** The state with the [quit] channel left out. *)
Definition shutdownState (s : State) : MainPC * GoPC * option Signal * nat * bool * nat :=
  (mainpc s, gopc s, caught s, shutdownCalls s, handlersLive s, wg s).

(** The goroutine has taken a signal from [quit]. *)
Definition draining (s : State) : bool :=
  match gopc s with
  | Registering | AwaitSignal => false
  | _ => true
  end.

(** [serve] has returned an error. *)
Definition failed (s : State) : bool :=
  match mainpc s with ServeReturned (Some _) => true | _ => false end.

(** What holds of every state that a run reaches: once [Shutdown] has
    returned nil no handler is live; past [Wait] the counter is zero;
    unless [serve] has returned an error in the meantime; and nil is only
    returned at the very end of the goroutine. *)
Definition drained (s : State) : Prop :=
  match gopc s with
  | InWait => handlersLive s = false \/ failed s = true
  | SendNil | Finished => (handlersLive s = false /\ wg s = 0%nat) \/ failed s = true
  | _ => True
  end /\
  (mainpc s = ServeReturned None -> gopc s = Finished).

(** How the goroutine's view of the signals relates to those relayed so
    far. *)
Definition signalView (evs : list Event) (s : State) : Prop :=
  Forall (fun sig => notified sig = true) (delivered evs) /\
  match gopc s with
  | Registering =>
      delivered evs = [] /\ quit s = [] /\ caught s = None /\ shutdownCalls s = 0%nat
  | AwaitSignal =>
      quit s = take 1 (delivered evs) /\ caught s = None /\ shutdownCalls s = 0%nat
  | _ =>
      delivered evs <> [] /\ caught s = head (delivered evs) /\ shutdownCalls s = 1%nat
  end.

End Lifecycle.

(** ** Where the outcome of [serve] comes from *)

Module Serve.

Import Lifecycle.

(** How the value returned by [serve] and the position of the goroutine
    relate to what has happened in a run. *)
Definition provenance (evs : list Event) (s : State) : Prop :=
  (forall e, mainpc s = ServeReturned (Some e) ->
     ListenFails e ∈ evs \/
     (ShutdownReturns (Some e) ∈ evs /\ (gopc s = InWait \/ gopc s = SendNil))) /\
  (forall e, gopc s = SendErr e -> ShutdownReturns (Some e) ∈ evs) /\
  (forall e, ShutdownReturns (Some e) ∈ evs ->
     gopc s = SendErr e \/
     ((gopc s = InWait \/ gopc s = SendNil) /\ mainpc s = ServeReturned (Some e))) /\
  (gopc s = Finished -> mainpc s = ServeReturned None) /\
  (mainpc s = AwaitShutdownError -> (1 <= shutdownCalls s)%nat).

(** No error has come up: [serve] has not returned one, and the goroutine
    holds none to send. *)
Definition healthy (s : State) : bool :=
  negb (failed s) && match gopc s with SendErr _ => false | _ => true end.

(** A schedule that brings the goroutine from where it is to the end of
    [Wait]: register, let a SIGTERM in if [quit] is empty, take the signal,
    let [Shutdown] succeed, let every counted task complete. *)
Definition untilWaited (s : State) : list Event :=
  let tasks := replicate (wg s) TaskDone in
  match gopc s with
  | Registering =>
      [Notify; Deliver SIGTERM; ReceiveSignal; ShutdownReturns None] ++ tasks ++ [WaitReturns]
  | AwaitSignal =>
      match quit s with
      | [] => [Deliver SIGTERM; ReceiveSignal; ShutdownReturns None] ++ tasks ++ [WaitReturns]
      | _ => [ReceiveSignal; ShutdownReturns None] ++ tasks ++ [WaitReturns]
      end
  | InShutdown => [ShutdownReturns None] ++ tasks ++ [WaitReturns]
  | InWait => tasks ++ [WaitReturns]
  | _ => []
  end.

(** The rest of the way: [ListenAndServe] returns, the nil is handed over. *)
Definition untilReturned (s : State) : list Event :=
  match mainpc s with
  | InListenAndServe => [ListenClosed; Handoff]
  | AwaitShutdownError => [Handoff]
  | ServeReturned _ => []
  end.

Definition gracefully (s : State) : list Event :=
  untilWaited s ++ untilReturned s.

End Serve.

(** ** The other handlers of [middleware.go] *)

Module Middleware.

Import Http Api.


(** [exampleHandler]: the two checks done inside the handler; [rest] is
    the handler logic that follows them. *)
Definition exampleHandler (app : application) (rest : Handler) : Handler :=
  fun r s =>
    match contextGetUser r with
    | None => (Panicked missingUser, s)
    | Some user =>
        if IsAnonymous user then (Returned, authenticationRequiredResponse s)
        else if negb (userActivated user) then (Returned, inactiveAccountResponse s)
        else rest r s
    end.

(** The three counters and the tally that [metrics] publishes. *)
Definition counters (s : State) : Z * Z * Z * gmap string Z :=
  (totalRequestsReceived s, totalResponsesSent s,
   totalProcessingTimeMicroseconds s, totalResponsesSentbyStatus s).

(** What a stage inside [metrics] leaves alone or keeps up. *)
Definition keepsCounters (h : Handler) : Prop :=
  forall r s, counters (h r s).2 = counters s.

Definition sameClients (h : Handler) : Prop :=
  forall r s, clients (h r s).2 = clients s.

Definition clockAdvances (h : Handler) : Prop :=
  forall r s, now s <= now (h r s).2.

Definition neverPanics (h : Handler) : Prop :=
  forall r s, (h r s).1 = Returned.



End Middleware.

(** ** The JSON logger ([internal/jsonlog]) *)

Module Jsonlog.

(** [Level] is an int8; the four named levels are 0 to 3. *)
Definition Level := Z.
Definition LevelInfo : Level := 0.
Definition LevelError : Level := 1.
Definition LevelFatal : Level := 2.
Definition LevelOff : Level := 3.

(** [Level.String]. *)
Definition LevelString (l : Level) : string :=
  if l =? LevelInfo then "INFO"
  else if l =? LevelError then "ERROR"
  else if l =? LevelFatal then "FATAL"
  else EmptyString.

(** [LogEntry]; [Properties] is a map that may be nil. *)
Record LogEntry := mkEntry {
  EntryLevel : string;
  EntryTime : string;
  EntryMessage : string;
  EntryProperties : option (gmap string string);
  EntryTrace : string
}.

(** What [print] reads at the moment it runs: the formatted time and the
    stack trace. [json.Marshal] is passed to the functions below as
    [Marshal], returning the encoding or an error text. *)
Record Moment := mkMoment {
  timeNow : string;
  debugStack : string
}.

(** [Logger]: the minimum level, and what has been written to [out], one
    element for each call of its [Write]. The destination takes all it is
    given, as a buffer or the standard output does. *)
Record Logger := mkLogger {
  minLevel : Level;
  out : list string
}.

Definition NewLogger (minLevel : Level) : Logger :=
  {| minLevel := minLevel; out := [] |}.

Definition newline : string := String "010" EmptyString.

(** The line that [print] builds for an entry. *)
Definition line (Marshal : LogEntry -> string + string) (level : Level)
    (message : string) (properties : option (gmap string string)) (m : Moment) : string :=
  let aux := {| EntryLevel := LevelString level; EntryTime := timeNow m;
                EntryMessage := message; EntryProperties := properties;
                EntryTrace := if LevelError <=? level then debugStack m
                              else EmptyString |} in
  match Marshal aux with
  | inl js => js
  | inr err => (LevelString LevelError ++ ": unable to marshal log entry" ++ err)%string
  end.

(** [print]: the number of bytes written, and the logger after. *)
Definition print (Marshal : LogEntry -> string + string) (level : Level)
    (message : string) (properties : option (gmap string string)) (m : Moment)
    (l : Logger) : Z * Logger :=
  if level <? minLevel l then (0, l)
  else
    let bytes := (line Marshal level message properties m ++ newline)%string in
    (Z.of_nat (String.length bytes),
     {| minLevel := minLevel l; out := out l ++ [bytes] |}).

Definition PrintInfo Marshal message properties m (l : Logger) : Logger :=
  (print Marshal LevelInfo message properties m l).2.

Definition PrintError Marshal (err : string) properties m (l : Logger) : Logger :=
  (print Marshal LevelError err properties m l).2.

(** [PrintFatal] prints and then calls [os.Exit(1)]: the logger as the
    process leaves it, and the exit status. *)
Definition PrintFatal Marshal (err : string) properties m (l : Logger) : Logger * Z :=
  ((print Marshal LevelFatal err properties m l).2, 1).

(** [Write], which makes the logger an [io.Writer]. *)
Definition Write Marshal (message : string) m (l : Logger) : Z * Logger :=
  print Marshal LevelError message None m l.

(** A call of one of the four methods, with the moment at which it runs. *)
Inductive Call :=
| CallInfo (message : string) (properties : option (gmap string string)) (m : Moment)
| CallError (err : string) (properties : option (gmap string string)) (m : Moment)
| CallWrite (message : string) (m : Moment).

Definition callLevel (c : Call) : Level :=
  match c with
  | CallInfo _ _ _ => LevelInfo
  | CallError _ _ _ | CallWrite _ _ => LevelError
  end.

Definition callLine Marshal (c : Call) : string :=
  match c with
  | CallInfo message properties m => line Marshal LevelInfo message properties m
  | CallError err properties m => line Marshal LevelError err properties m
  | CallWrite message m => line Marshal LevelError message None m
  end.

Definition call Marshal (c : Call) (l : Logger) : Logger :=
  match c with
  | CallInfo message properties m => PrintInfo Marshal message properties m l
  | CallError err properties m => PrintError Marshal err properties m l
  | CallWrite message m => (Write Marshal message m l).2
  end.

(** The tail of [main]: [serve] has returned [served]; on an error
    [PrintFatal] ends the process at once, otherwise [main] returns and the
    deferred function closes the pool, a failure of which is fatal too.
    The result is the logger, the exit status, and whether [db.Close] was
    called. *)
Definition mainTail Marshal (served closed : option string) (m : Moment)
    (l : Logger) : Logger * Z * bool :=
  match served with
  | Some err => (PrintFatal Marshal err None m l, false)
  | None =>
      match closed with
      | Some err => (PrintFatal Marshal err None m l, true)
      | None => (l, 0, true)
      end
  end.

End Jsonlog.

(** ** The JSON form of a movie runtime ([Runtime] of [internal/data]) *)

Module Runtime.

Import Http.

(** A [Runtime] is an int32. *)
Definition isInt32 (z : Z) : Prop := - 2 ^ 31 <= z < 2 ^ 31.

(** The verb [%d] of [fmt.Sprintf]: decimal digits, a minus sign in front
    of a negative number. *)
Definition formatInt (z : Z) : string := NilEmpty.string_of_int (Z.to_int z).

(** The value of a decimal digit. *)
Definition digit (c : ascii) : option Z :=
  let n := Z.of_nat (nat_of_ascii c) in
  if (48 <=? n) && (n <=? 57) then Some (n - 48) else None.

Fixpoint parseDigits (acc : Z) (s : string) : option Z :=
  match s with
  | EmptyString => Some acc
  | String c rest =>
      match digit c with
      | Some d => parseDigits (10 * acc + d) rest
      | None => None
      end
  end.

(** [strconv.ParseInt(s, 10, 32)], [None] for any of its errors: an
    optional sign, then at least one decimal digit and nothing else, the
    value within the range of an int32. *)
Definition ParseInt32 (s : string) : option Z :=
  match s with
  | EmptyString => None
  | String c rest =>
      let '(neg, body) :=
        if Ascii.eqb c "+" then (false, rest)
        else if Ascii.eqb c "-" then (true, rest)
        else (false, s) in
      match body with
      | EmptyString => None
      | _ =>
          match parseDigits 0 body with
          | None => None
          | Some un =>
              if neg then (if un <=? 2 ^ 31 then Some (- un) else None)
              else (if un <? 2 ^ 31 then Some un else None)
          end
      end
  end.

(** [MarshalJSON]; [Quote] is [strconv.Quote]. It never fails. *)
Definition MarshalJSON (Quote : string -> string) (r : Z) : string :=
  let jsonValue := (formatInt r ++ " mins")%string in
  Quote jsonValue.

(** [UnmarshalJSON]; [Unquote] is [strconv.Unquote], [None] when it
    fails. The result is the value assigned to the receiver, or [None] for
    [ErrInvalidRuntimeFormat], the receiver being left as it was. *)
Definition UnmarshalJSON (Unquote : string -> option string) (jsonValue : string)
    : option Z :=
  match Unquote jsonValue with
  | None => None
  | Some unquotedJSONValue =>
      match Split unquotedJSONValue " " with
      | [number; unit] =>
          if negb (String.eqb unit "mins") then None
          else ParseInt32 number
      | _ => None
      end
  end.

(** The value of a decimal numeral read from the left, starting from [acc]. *)
Fixpoint uintValue (acc : Z) (d : Decimal.uint) : Z :=
  match d with
  | Decimal.Nil => acc
  | Decimal.D0 l => uintValue (10 * acc) l
  | Decimal.D1 l => uintValue (10 * acc + 1) l
  | Decimal.D2 l => uintValue (10 * acc + 2) l
  | Decimal.D3 l => uintValue (10 * acc + 3) l
  | Decimal.D4 l => uintValue (10 * acc + 4) l
  | Decimal.D5 l => uintValue (10 * acc + 5) l
  | Decimal.D6 l => uintValue (10 * acc + 6) l
  | Decimal.D7 l => uintValue (10 * acc + 7) l
  | Decimal.D8 l => uintValue (10 * acc + 8) l
  | Decimal.D9 l => uintValue (10 * acc + 9) l
  end.

End Runtime.

(** ** The token handlers ([cmd/api/tokens.go]) *)

Module Tokens.

Import Http.

Definition Hour : Duration := 60 * Minute.

(** The scopes of [internal/data], which is not part of the sources: three
    distinct strings. *)
Definition ScopeActivation : string := "activation".
Definition ScopeAuthentication : string := Api.ScopeAuthentication.
Definition ScopePasswordReset : string := "password-reset".

(** Of a user record and of a token, what the handlers read. *)
Record User := mkUser {
  ID : Z;
  Email : string;
  Activated : bool;
  PasswordHash : string
}.

Record Token := mkToken {
  Plaintext : string;
  TokenUserID : Z;
  TTL : Duration;
  Scope : string
}.

(** The fields of the [input] structs of the four handlers. *)
Record Input := mkInput {
  InputEmail : string;
  InputPassword : string;
  InputTokenPlaintext : string
}.

(** What goes into the envelope of a JSON reply. *)
Inductive Payload :=
| Message (text : string)
| AuthenticationToken (token : Token).

(** What [Users.Update] returns. *)
Inductive UpdateResult :=
| Updated
| ErrEditConflict
| UpdateError (detail : string).

(** The collaborators of the handlers: the JSON helpers of
    [cmd/api/helpers.go], the validator, and the models and password
    functions of [internal/data]. None of them is part of the sources;
    each is taken as it comes. A validator value is a [V]. *)
Record Deps := mkDeps {
  V : Type;
  New : V;
  Valid : V -> bool;
  AddError : string -> string -> V -> V;
  Errors : V -> gmap string string;
  ValidateEmail : V -> string -> V;
  ValidatePasswordPlaintext : V -> string -> V;
  ValidateTokenPlaintext : V -> string -> V;
  readJSON : Request -> Input + string;
  GetByEmail : string -> Api.lookup User;
  GetForToken : string -> string -> Api.lookup User;
  Matches : User -> string -> bool + string;
  PasswordSet : User -> string -> User + string;
  TokensNew : Z -> Duration -> string -> Token + string;
  UsersUpdate : User -> UpdateResult;
  DeleteAllForUser : string -> Z -> option string;
  writeJSONFails : Z -> Payload -> option string
}.

(** What a handler sends. *)
Inductive Reply :=
| BadRequest (err : string)
| FailedValidation (errors : gmap string string)
| InvalidCredentials
| ServerError (err : string)
| EditConflict
| JSON (status : Z) (payload : Payload).

(** What a handler does that is seen outside of it, in order: a reply, a
    call that writes to storage, a background task started with
    [app.background], a call of [writeJSON] that returned an error. *)
Inductive Action :=
| Respond (reply : Reply)
| InsertToken (userID : Z) (ttl : Duration) (scope : string)
| Background (recipient template plaintext : string)
| UpdateUser (user : User)
| DeleteTokens (scope : string) (userID : Z)
| FailedWrite (status : Z) (payload : Payload).

(** [app.writeJSON] and the check of its error that ends each handler:
    the reply is sent, or the call fails and the server error is sent. *)
Definition writeJSON (d : Deps) (status : Z) (payload : Payload) : list Action :=
  match writeJSONFails d status payload with
  | Some err => [FailedWrite status payload; Respond (ServerError err)]
  | None => [Respond (JSON status payload)]
  end.

Definition StatusOK : Z := 200.
Definition StatusCreated : Z := 201.
Definition StatusAccepted : Z := 202.

Definition createActivationTokenHandler (d : Deps) (r : Request) : list Action :=
  match readJSON d r with
  | inr err => [Respond (BadRequest err)]
  | inl input =>
      let v := ValidateEmail d (New d) (InputEmail input) in
      if negb (Valid d v) then [Respond (FailedValidation (Errors d v))]
      else
        match GetByEmail d (InputEmail input) with
        | Api.ErrRecordNotFound =>
            let v := AddError d "email" "no matching email address found" v in
            [Respond (FailedValidation (Errors d v))]
        | Api.OtherError err => [Respond (ServerError err)]
        | Api.Found user =>
            if Activated user then
              let v := AddError d "email" "user has already been activated" v in
              [Respond (FailedValidation (Errors d v))]
            else
              InsertToken (ID user) (3 * 24 * Hour) ScopeActivation ::
              match TokensNew d (ID user) (3 * 24 * Hour) ScopeActivation with
              | inr err => [Respond (ServerError err)]
              | inl token =>
                  Background (Email user) "token_activation.tmpl" (Plaintext token) ::
                  writeJSON d StatusAccepted
                    (Message "an email will be sent to you containing activation instructions")
              end
        end
  end.

Definition createAuthenticationTokenHandler (d : Deps) (r : Request) : list Action :=
  match readJSON d r with
  | inr err => [Respond (BadRequest err)]
  | inl input =>
      let v := ValidateEmail d (New d) (InputEmail input) in
      let v := ValidatePasswordPlaintext d v (InputPassword input) in
      if negb (Valid d v) then [Respond (FailedValidation (Errors d v))]
      else
        match GetByEmail d (InputEmail input) with
        | Api.ErrRecordNotFound => [Respond InvalidCredentials]
        | Api.OtherError err => [Respond (ServerError err)]
        | Api.Found user =>
            match Matches d user (InputPassword input) with
            | inr err => [Respond (ServerError err)]
            | inl false => [Respond InvalidCredentials]
            | inl true =>
                InsertToken (ID user) (24 * Hour) ScopeAuthentication ::
                match TokensNew d (ID user) (24 * Hour) ScopeAuthentication with
                | inr err => [Respond (ServerError err)]
                | inl token => writeJSON d StatusCreated (AuthenticationToken token)
                end
            end
        end
  end.

Definition createPasswordResetTokenHandler (d : Deps) (r : Request) : list Action :=
  match readJSON d r with
  | inr err => [Respond (BadRequest err)]
  | inl input =>
      let v := ValidateEmail d (New d) (InputEmail input) in
      if negb (Valid d v) then [Respond (FailedValidation (Errors d v))]
      else
        match GetByEmail d (InputEmail input) with
        | Api.ErrRecordNotFound =>
            let v := AddError d "email" "no matching email address found" v in
            [Respond (FailedValidation (Errors d v))]
        | Api.OtherError err => [Respond (ServerError err)]
        | Api.Found user =>
            if negb (Activated user) then
              let v := AddError d "email" "user account must be activated" v in
              [Respond (FailedValidation (Errors d v))]
            else
              InsertToken (ID user) (45 * Minute) ScopePasswordReset ::
              match TokensNew d (ID user) (45 * Minute) ScopePasswordReset with
              | inr err => [Respond (ServerError err)]
              | inl token =>
                  Background (Email user) "token_password_reset.tmpl" (Plaintext token) ::
                  writeJSON d StatusAccepted
                    (Message "an email will be sent to you containing password reset instructions")
              end
        end
  end.

Definition updateUserPasswordHandler (d : Deps) (r : Request) : list Action :=
  match readJSON d r with
  | inr err => [Respond (BadRequest err)]
  | inl input =>
      let v := ValidatePasswordPlaintext d (New d) (InputPassword input) in
      let v := ValidateTokenPlaintext d v (InputTokenPlaintext input) in
      if negb (Valid d v) then [Respond (FailedValidation (Errors d v))]
      else
        match GetForToken d ScopePasswordReset (InputTokenPlaintext input) with
        | Api.ErrRecordNotFound =>
            let v := AddError d "token" "invalid or expired password reset token" v in
            [Respond (FailedValidation (Errors d v))]
        | Api.OtherError err => [Respond (ServerError err)]
        | Api.Found user =>
            match PasswordSet d user (InputPassword input) with
            | inr err => [Respond (ServerError err)]
            | inl user =>
                UpdateUser user ::
                match UsersUpdate d user with
                | ErrEditConflict => [Respond EditConflict]
                | UpdateError err => [Respond (ServerError err)]
                | Updated =>
                    DeleteTokens ScopePasswordReset (ID user) ::
                    match DeleteAllForUser d ScopePasswordReset (ID user) with
                    | Some err => [Respond (ServerError err)]
                    | None =>
                        writeJSON d StatusOK
                          (Message "your password was successfully reset")
                    end
                end
            end
        end
  end.

(** The tokens a handler asks storage to make, the tasks it starts, and
    its replies. *)
Definition inserted (acts : list Action) : list (Z * Duration * string) :=
  omap (fun a => match a with InsertToken u t s => Some (u, t, s) | _ => None end) acts.

Definition mailed (acts : list Action) : list (string * string * string) :=
  omap (fun a => match a with Background to tmpl p => Some (to, tmpl, p) | _ => None end) acts.


End Tokens.

(** A sample set of collaborators for the token handlers: a store with one
    activated and one not yet activated user, passwords kept as they are,
    validators that ask for non-empty fields, and a request body that is the
    given input. *)

Module TokenSample.

Import Tokens.

Definition ana : User :=
  {| ID := 7; Email := "Ana@example.com"; Activated := true; PasswordHash := "pa55word" |}.
Definition ben : User :=
  {| ID := 8; Email := "ben@example.com"; Activated := false; PasswordHash := "hunter22" |}.

Definition require (key value : string) (v : gmap string string) : gmap string string :=
  if String.eqb value EmptyString then <[key := "must be provided"%string]> v else v.

Definition deps (input : Input) : Deps :=
  {| V := gmap string string;
     New := ∅;
     Valid := fun v => bool_decide (v = ∅);
     AddError := fun key message v =>
       match v !! key with Some _ => v | None => <[key := message]> v end;
     Errors := fun v => v;
     ValidateEmail := fun v email => require "email" email v;
     ValidatePasswordPlaintext := fun v password => require "password" password v;
     ValidateTokenPlaintext := fun v token => require "token" token v;
     readJSON := fun _ => inl input;
     GetByEmail := fun email =>
       if String.eqb email "ana@example.com" then Api.Found ana
       else if String.eqb email "ben@example.com" then Api.Found ben
       else Api.ErrRecordNotFound;
     GetForToken := fun scope token =>
       if String.eqb scope ScopePasswordReset && String.eqb token "RESETRESETRESETRESETRESET1"
       then Api.Found ana else Api.ErrRecordNotFound;
     Matches := fun user password => inl (String.eqb (PasswordHash user) password);
     PasswordSet := fun user password =>
       inl {| ID := ID user; Email := Email user; Activated := Activated user;
              PasswordHash := password |};
     TokensNew := fun userID ttl scope =>
       inl {| Plaintext := "Y3QMGX3PJ3WLRL2YRTQGQ6KRHU"; TokenUserID := userID;
              TTL := ttl; Scope := scope |};
     UsersUpdate := fun _ => Updated;
     DeleteAllForUser := fun _ _ => None;
     writeJSONFails := fun _ _ => None |}.

Definition post : Http.Request := Sample.get [] "10.0.0.1".

End TokenSample.

(** * Properties *)

(** ** Token bucket *)



(** A limiter of capacity 4, called five times at once, admits four. *)
Example limiter_burst_of_four :
  map snd (Limiter.calls (Limiter.NewLimiter 2 4 0) [0; 0; 0; 0; 0])
  = [true; true; true; true; false].
Proof. reflexivity. Qed.

(** Half a second later one token is back. *)
Example limiter_refill_half_second :
  map snd (Limiter.calls (Limiter.NewLimiter 2 4 0)
             [0; 0; 0; 0; 0; 500000000; 500000000])
  = [true; true; true; true; false; true; false].
Proof. vm_compute. reflexivity. Qed.

Section TokenBucketBound.

Import Limiter.
















End TokenBucketBound.



(** ** The middleware chain *)

Section Chain.

Import Http Api.

Variable app : application.

Lemma trace_with_w f s : trace (with_w f s) = trace s.
Proof. reflexivity. Qed.

Lemma metrics_forwards next r s : forwards Metrics (metrics app next) next r s.
Proof.
  unfold forwards, metrics. cbv zeta.
  match goal with |- context [next r ?s1] => exists r, s1, [Enter Metrics] end.
  split; [reflexivity |]. split; [reflexivity |].
  destruct (next r _) as [[|v] s']; reflexivity.
Qed.

Lemma recoverPanic_forwards next r s :
  forwards RecoverPanic (recoverPanic app next) next r s.
Proof.
  unfold forwards, recoverPanic. cbv zeta.
  exists r, (record (Enter RecoverPanic) s), [Enter RecoverPanic].
  split; [reflexivity |]. split; [reflexivity |].
  destruct (next r _) as [[|v] s']; reflexivity.
Qed.

Lemma enableCORS_steps next r s :
  stops EnableCORS (enableCORS app next) r s \/
  forwards EnableCORS (enableCORS app next) next r s.
Proof.
  unfold stops, forwards, enableCORS. cbv zeta.
  destruct (trustedOrigin app r); [destruct (isPreflight r) |].
  - left. exists [Enter EnableCORS]. split; reflexivity.
  - right. eexists r, _, [Enter EnableCORS].
    split; [reflexivity |]. split; [| reflexivity]. reflexivity.
  - right. eexists r, _, [Enter EnableCORS].
    split; [reflexivity |]. split; [| reflexivity]. reflexivity.
Qed.

Lemma rateLimit_steps next r s :
  stops RateLimit (rateLimit app next) r s \/
  forwards RateLimit (rateLimit app next) next r s.
Proof.
  unfold stops, forwards, rateLimit. cbv zeta.
  destruct (limiter_enabled (cfg app)).
  - destruct (allowClient app _ _ _) as [[|] cl]; simpl negb; cbv iota.
    + right. eexists r, _, [Enter RateLimit].
      split; [reflexivity |]. split; [| reflexivity]. reflexivity.
    + left. exists [Enter RateLimit]. split; reflexivity.
  - right. eexists r, _, [Enter RateLimit].
    split; [reflexivity |]. split; [| reflexivity]. reflexivity.
Qed.

Lemma authenticate_steps next r s :
  stops Authenticate (authenticate app next) r s \/
  forwards Authenticate (authenticate app next) next r s.
Proof.
  unfold stops, forwards, authenticate. cbv zeta.
  destruct (String.eqb _ EmptyString).
  { right. eexists _, _, [Enter Authenticate].
    split; [reflexivity |]. split; [| reflexivity]. reflexivity. }
  destruct (Split _ _) as [|scheme [|token [|]]];
    try (left; exists [Enter Authenticate]; split; reflexivity).
  destruct (String.eqb scheme _); simpl negb; cbv iota;
    [| left; exists [Enter Authenticate]; split; reflexivity].
  destruct (ValidateTokenPlaintext app token); simpl negb; cbv iota;
    [| left; exists [Enter Authenticate]; split; reflexivity].
  destruct (Users_GetForToken app _ _).
  - right. eexists _, _, [Enter Authenticate; GetForToken ScopeAuthentication token].
    split; [reflexivity |]. split; [| reflexivity].
    simpl. now rewrite <- app_assoc.
  - left. exists [Enter Authenticate; GetForToken ScopeAuthentication token].
    split; [reflexivity |]. simpl. now rewrite <- app_assoc.
  - left. exists [Enter Authenticate; GetForToken ScopeAuthentication token].
    split; [reflexivity |]. simpl. now rewrite <- app_assoc.
Qed.

Lemma serveOpaque_stops tag h r s : stops tag (serveOpaque tag h) r s.
Proof.
  unfold stops, serveOpaque. cbv zeta. exists [Enter tag].
  split; [reflexivity |].
  destruct (h r _) as [[o w'] d]. reflexivity.
Qed.

Lemma stages_app tr1 tr2 : stages (tr1 ++ tr2) = stages tr1 ++ stages tr2.
Proof. apply omap_app. Qed.

Lemma runs_serveOpaque tag h : runs 1 (serveOpaque tag h) [tag].
Proof.
  intros r s. destruct (serveOpaque_stops tag h r s) as (pre & Hst & Htr).
  exists pre, 1%nat. repeat split; [assumption | lia | assumption].
Qed.

(** A stage that always hands over runs one stage more than what it wraps. *)
Lemma runs_forwards st h next k order :
  (forall r s, forwards st h next r s) ->
  runs k next order -> runs (S k) h (st :: order).
Proof.
  intros Hf Hn r s.
  destruct (Hf r s) as (r' & s' & pre & Hst & Hs' & Htr).
  destruct (Hn r' s') as (evs & n & Hevs & Hk & Hstages).
  exists (pre ++ evs), (S n). split; [| split].
  - rewrite Htr, Hevs, Hs'. now rewrite app_assoc.
  - lia.
  - rewrite stages_app, Hst, Hstages. reflexivity.
Qed.

(** A stage that may answer by itself still enters first. *)
Lemma runs_steps st h next k order :
  (forall r s, stops st h r s \/ forwards st h next r s) ->
  runs k next order -> runs 1 h (st :: order).
Proof.
  intros Hstep Hn r s. destruct (Hstep r s) as [(pre & Hst & Htr) | Hf].
  - exists pre, 1%nat. split; [assumption |]. split; [lia |].
    rewrite Hst. reflexivity.
  - destruct Hf as (r' & s' & pre & Hst & Hs' & Htr).
    destruct (Hn r' s') as (evs & n & Hevs & Hk & Hstages).
    exists (pre ++ evs), (S n). split; [| split].
    + rewrite Htr, Hevs, Hs'. now rewrite app_assoc.
    + lia.
    + rewrite stages_app, Hst, Hstages. reflexivity.
Qed.

End Chain.

(** C3. Whatever the request, the stages it enters are an initial segment
    of: metrics, recoverPanic, enableCORS, rateLimit, authenticate, router,
    in this order; the first three are always entered, so a request that
    reaches the router has entered all five before it. *)
Theorem routes_stage_order (app : Api.application) (router : Api.Opaque)
    (r : Http.Request) (s : Api.State) :
  exists evs n,
    Api.trace (Api.routes app router r s).2 = Api.trace s ++ evs /\
    (3 <= n)%nat /\
    Api.stages evs = take n Api.chainOrder.
Proof.
  assert (Api.runs 3 (Api.routes app router) Api.chainOrder) as Hruns.
  { unfold Api.routes, Api.chainOrder.
    eapply runs_forwards; [intros; apply metrics_forwards |].
    eapply runs_forwards; [intros; apply recoverPanic_forwards |].
    eapply runs_steps; [apply enableCORS_steps |].
    eapply runs_steps; [apply rateLimit_steps |].
    eapply runs_steps; [apply authenticate_steps |].
    apply runs_serveOpaque. }
  destruct (Hruns r s) as (evs & n & Htr & Hn & Hst).
  exists evs, n. repeat split; assumption.
Qed.

(** ** Rejection by admission control *)

(** C8. A request that reaches admission control and is rejected there
    leaves [routes] with the 429 rejection: the stages entered are metrics,
    recoverPanic, enableCORS and rateLimit only (neither [authenticate] nor
    the router, whatever the router is, and no storage lookup), and the
    accounting of [metrics] after the chain has run: one more response
    sent, one more under status 429. *)
Theorem rejected_request_skips_dispatch_but_is_counted (app : Api.application)
    (r : Http.Request) (s : Api.State) :
  Api.limiter_enabled (Api.cfg app) = true ->
  Api.trustedOrigin app r && Api.isPreflight r = false ->
  (Api.allowClient app (Api.realip_FromRequest app r) (Api.now s) (Api.clients s)).1 = false ->
  exists s',
    (forall router, Api.routes app router r (Api.arrive s) = (Api.Returned, s')) /\
    Api.trace s' = [Api.Enter Api.Metrics; Api.Enter Api.RecoverPanic;
                    Api.Enter Api.EnableCORS; Api.Enter Api.RateLimit] /\
    Http.Status (Api.w s') = Some Http.StatusTooManyRequests /\
    Http.Body (Api.w s') = [Http.ErrorBody Http.AdmissionRejected] /\
    Api.totalRequestsReceived s' = Api.totalRequestsReceived s + 1 /\
    Api.totalResponsesSent s' = Api.totalResponsesSent s + 1 /\
    Api.totalResponsesSentbyStatus s' =
      Api.mapAdd "429" 1 (Api.totalResponsesSentbyStatus s).
Proof.
  intros Hen Hpre Hadm.
  destruct (Api.allowClient app _ _ _) as [ok cl] eqn:E. simpl in Hadm. subst ok.
  unfold Api.routes, Api.metrics, Api.recoverPanic, Api.enableCORS, Api.rateLimit.
  cbv zeta. rewrite Hen.
  destruct (Api.trustedOrigin app r) eqn:Hto;
    [destruct (Api.isPreflight r) eqn:Hpf; [discriminate |] |].
  - cbn -[Api.allowClient]. rewrite E. cbn. eexists. repeat split.
  - cbn -[Api.allowClient]. rewrite E. cbn. eexists. repeat split.
Qed.

Lemma rejected_request_skips_dispatch_but_is_counted_witness :
  exists s',
    (forall router, Api.routes Sample.app router (Sample.get [] "10.0.0.1")
                      (Api.arrive Sample.exhausted) = (Api.Returned, s')) /\
    Api.trace s' = [Api.Enter Api.Metrics; Api.Enter Api.RecoverPanic;
                    Api.Enter Api.EnableCORS; Api.Enter Api.RateLimit] /\
    Http.Status (Api.w s') = Some Http.StatusTooManyRequests /\
    Http.Body (Api.w s') = [Http.ErrorBody Http.AdmissionRejected] /\
    Api.totalRequestsReceived s' = Api.totalRequestsReceived Sample.exhausted + 1 /\
    Api.totalResponsesSent s' = Api.totalResponsesSent Sample.exhausted + 1 /\
    Api.totalResponsesSentbyStatus s' =
      Api.mapAdd "429" 1 (Api.totalResponsesSentbyStatus Sample.exhausted).
Proof.
  apply (rejected_request_skips_dispatch_but_is_counted
           Sample.app (Sample.get [] "10.0.0.1") Sample.exhausted);
    vm_compute; reflexivity.
Defined.

(** ** Authentication *)

Section SplitFacts.

Import Http.

Variable sep : ascii.

Lemma Split_not_nil s : Split s sep <> [].
Proof.
  destruct s as [|c rest]; simpl; [discriminate |].
  destruct (Ascii.eqb c sep); [discriminate |].
  destruct (Split rest sep); discriminate.
Qed.

(** A string without the separator is its own single part. *)
Lemma Split_whole s : contains sep s = false -> Split s sep = [s].
Proof.
  induction s as [|c rest IH]; simpl; [reflexivity |].
  intros H. apply orb_false_iff in H as [Hc Hrest].
  rewrite Hc, (IH Hrest). reflexivity.
Qed.

Lemma Split_append a b :
  contains sep a = false ->
  Split (a ++ String sep b) sep = a :: Split b sep.
Proof.
  induction a as [|c rest IH]; simpl.
  - intros _. now rewrite Ascii.eqb_refl.
  - intros H. apply orb_false_iff in H as [Hc Hrest].
    rewrite Hc, (IH Hrest). reflexivity.
Qed.

(** A single part is the whole string, and holds no separator. *)
Lemma Split_one s : forall b, Split s sep = [b] -> s = b /\ contains sep s = false.
Proof.
  induction s as [|c rest IH]; simpl; intros b H.
  - injection H as <-. split; reflexivity.
  - destruct (Ascii.eqb c sep) eqn:Hc.
    + injection H as _ H. now apply Split_not_nil in H.
    + destruct (Split rest sep) as [|p ps] eqn:E; [now apply Split_not_nil in E |].
      injection H as <- ->. destruct (IH p eq_refl) as [-> Hn].
      split; [reflexivity | exact Hn].
Qed.

(** Exactly two parts: the string is the first part, the separator, and
    the second part, and neither part holds a separator. *)
Lemma Split_two s : forall a b,
  Split s sep = [a; b] ->
  s = (a ++ String sep b)%string /\ contains sep a = false /\ contains sep b = false.
Proof.
  induction s as [|c rest IH]; simpl; intros a b H; [discriminate |].
  destruct (Ascii.eqb c sep) eqn:Hc.
  - injection H as <- H. apply Split_one in H as [-> Hn].
    apply Ascii.eqb_eq in Hc as ->. repeat split. exact Hn.
  - destruct (Split rest sep) as [|p ps] eqn:E; [now apply Split_not_nil in E |].
    injection H as <- ->. destruct (IH p b eq_refl) as (-> & Ha & Hb).
    repeat split; simpl; [now rewrite Hc, Ha | exact Hb].
Qed.

End SplitFacts.

Lemma Get_absent (h : Http.Header) (key : string) :
  h !! key = None -> Http.Get h key = EmptyString.
Proof. unfold Http.Get. now intros ->. Qed.

(** C4, as the code has it. [authenticate] resolves the identity from the
    value [h] that [Get] returns for the Authorization field: empty (no
    such field, or a field with an empty value), the request proceeds as
    anonymous; not empty and not Bearer, one space, and a token that passes
    the structural validation, the invalid-credential rejection, with no
    lookup recorded; otherwise by the answer of storage: no record, the
    invalid-credential rejection; another error, the server fault; a
    record, the request proceeds with that user attached. *)
Theorem authenticate_resolution (app : Api.application) (next : Api.Handler)
    (r : Http.Request) (s : Api.State) :
  let h := Http.Get (Http.ReqHeader r) "Authorization" in
  (Http.ReqHeader r !! "Authorization" = None -> h = EmptyString) /\
  (h = EmptyString ->
     Api.authenticate app next r s
     = next (Http.contextSetUser r Http.AnonymousUser) (Api.authEntered s)) /\
  (h <> EmptyString -> Api.malformedCredential app h ->
     Api.authenticate app next r s
     = (Api.Returned, Api.invalidAuthenticationTokenResponse (Api.authEntered s))) /\
  (forall token, h = ("Bearer " ++ token)%string -> Http.contains " " token = false ->
     Api.ValidateTokenPlaintext app token = true ->
     Api.authenticate app next r s = Api.afterLookup app next r token s) /\
  Api.trace (Api.invalidAuthenticationTokenResponse (Api.authEntered s))
  = Api.trace s ++ [Api.Enter Api.Authenticate].
Proof.
  intros h. split; [apply Get_absent |].
  unfold Api.authenticate. cbv zeta. fold h. fold (Api.authEntered s).
  split; [| split; [| split]].
  - intros ->. reflexivity.
  - intros Hne Hbad.
    destruct (String.eqb_spec h EmptyString) as [|_]; [contradiction |].
    destruct (Http.Split h " ") as [|scheme [|token [|]]] eqn:E; try reflexivity.
    destruct (String.eqb_spec scheme "Bearer") as [->|]; [| reflexivity].
    apply Split_two in E as (Eh & _ & Htok).
    rewrite (Hbad token Eh Htok). reflexivity.
  - intros token Eh Htok Hvalid. rewrite Eh.
    change ("Bearer " ++ token)%string with ("Bearer" ++ String " " token)%string.
    rewrite Split_append by reflexivity.
    rewrite (Split_whole _ _ Htok). simpl. rewrite Hvalid. reflexivity.
  - reflexivity.
Qed.

Lemma authenticate_resolution_witness :
  Api.authenticate Sample.app (Api.serveOpaque Api.Router Sample.okRouter)
    (Sample.get [("Authorization", ["Basic xyz"])] "10.0.0.1") Sample.idle
  = (Api.Returned, Api.invalidAuthenticationTokenResponse (Api.authEntered Sample.idle)).
Proof.
  apply (authenticate_resolution Sample.app
           (Api.serveOpaque Api.Router Sample.okRouter)
           (Sample.get [("Authorization", ["Basic xyz"])] "10.0.0.1") Sample.idle).
  - vm_compute. discriminate.
  - intros token E. vm_compute in E. discriminate.
Defined.

(** C4, as stated, fails for a request that carries an Authorization
    field with an empty value: the field is present and is not of the
    Bearer shape, yet the request proceeds as anonymous. *)
Lemma authenticate_empty_field_counterexample :
  ~ Api.resolvesAsStated Sample.app (Api.serveOpaque Api.Router Sample.okRouter)
      (Sample.get [("Authorization", [EmptyString])] "10.0.0.1") Sample.idle.
Proof.
  intros (_ & H & _).
  assert (Api.authenticate Sample.app (Api.serveOpaque Api.Router Sample.okRouter)
            (Sample.get [("Authorization", [EmptyString])] "10.0.0.1") Sample.idle
          = (Api.Returned,
             Api.invalidAuthenticationTokenResponse (Api.authEntered Sample.idle))) as E.
  { apply H.
    - vm_compute. eauto.
    - intros token E. vm_compute in E. discriminate. }
  apply (f_equal (fun out => Http.Status (Api.w out.2))) in E.
  vm_compute in E. discriminate.
Qed.

(** ** Guards *)

(** C10. In front of a handler guarded by [requirePermissions], for a
    request whose context carries the identity [u]: an anonymous identity
    gets the authentication-required rejection; an authenticated one that is
    not activated gets the inactive-account rejection; in both cases nothing
    is recorded, so the permission store is not asked; only for an
    authenticated, activated identity is the permission store asked, and
    only then can the response end in the permission-denied rejection. *)
Theorem guards_form_a_hierarchy (app : Api.application) (code : string)
    (next : Api.Handler) (r : Http.Request) (s : Api.State) (u : Http.UserRef) :
  Http.ctxUser r = Some u ->
  let out := Api.requirePermissions app code next r s in
  let asked := Api.record (Api.GetAllForUser (Http.userID u)) s in
  (Http.IsAnonymous u = true ->
     out = (Api.Returned, Api.authenticationRequiredResponse s)) /\
  (Http.IsAnonymous u = false -> Http.userActivated u = false ->
     out = (Api.Returned, Api.inactiveAccountResponse s)) /\
  (Http.IsAnonymous u = true \/ Http.userActivated u = false ->
     Api.trace out.2 = Api.trace s) /\
  (Http.IsAnonymous u = false -> Http.userActivated u = true ->
     out = match Api.Permissions_GetAllForUser app (Http.userID u) with
           | Api.Found permissions =>
               if Api.Include permissions code then next r asked
               else (Api.Returned, Api.notPermittedResponse asked)
           | _ => (Api.Returned, Api.serverErrorResponse asked)
           end) /\
  (last (Http.Body (Api.w out.2)) = Some (Http.ErrorBody Http.PermissionDenied) ->
     Http.IsAnonymous u = false /\ Http.userActivated u = true).
Proof.
  intros Hu out asked. subst out asked.
  unfold Api.requirePermissions, Api.requireActivatedUser,
    Api.requireAuthenticatedUser, Api.contextGetUser.
  cbv zeta. rewrite Hu.
  destruct u as [|[id activated]]; [| destruct activated]; simpl;
    repeat split; intros;
    try discriminate; try reflexivity;
    try match goal with
        | H : _ \/ _ |- _ => destruct H; discriminate
        | H : last (_ ++ [_]) = _ |- _ => rewrite last_snoc in H; discriminate
        end.
  destruct (Api.Permissions_GetAllForUser app id) as [ps| |]; try reflexivity.
  destruct (Api.Include ps code); reflexivity.
Qed.

Lemma guards_form_a_hierarchy_witness :
  Api.requirePermissions Sample.app "movies:read"
    (Api.serveOpaque Api.Guarded Sample.okRouter)
    (Http.contextSetUser (Sample.get [] "10.0.0.1") (Http.UserPtr Sample.bob))
    Sample.idle
  = (Api.Returned, Api.inactiveAccountResponse Sample.idle).
Proof.
  apply (guards_form_a_hierarchy Sample.app "movies:read"
           (Api.serveOpaque Api.Guarded Sample.okRouter)
           (Http.contextSetUser (Sample.get [] "10.0.0.1") (Http.UserPtr Sample.bob))
           Sample.idle (Http.UserPtr Sample.bob)); reflexivity.
Defined.

(** ** Panic containment *)

(** When the wrapped handler panics, [recoverPanic] returns normally and
    the server error response is appended to whatever was written; the
    field it sets is named "Connection:" with the colon, so the value that
    the server reads under "Connection" is the one the handler left. *)
Lemma recoverPanic_contains (app : Api.application) (next : Api.Handler)
    (r : Http.Request) (s s' : Api.State) (v : string) :
  next r (Api.record (Api.Enter Api.RecoverPanic) s) = (Api.Panicked v, s') ->
  let out := Api.recoverPanic app next r s in
  out.1 = Api.Returned /\
  Http.Body (Api.w out.2) = Http.Body (Api.w s') ++ [Http.ErrorBody Http.ServerFault] /\
  Http.RespHeader (Api.w out.2) !! "Connection:" = Some ["close"] /\
  Http.Get (Http.RespHeader (Api.w out.2)) "Connection"
  = Http.Get (Http.RespHeader (Api.w s')) "Connection".
Proof.
  intros Hnext. unfold Api.recoverPanic. cbv zeta. rewrite Hnext.
  destruct s' as [[hdr st body] ? ? ? ? ? ? ?].
  unfold Api.serverErrorResponse, Api.with_w, Http.errorResponse, Http.Write,
    Http.WriteHeader, Http.setHeader, Http.Set_, Http.Get.
  destruct st; simpl; repeat split;
    try apply lookup_insert_eq; now rewrite lookup_insert_ne.
Qed.

(** C9 on a request whose handler panics before writing anything: the
    panic is contained and the client gets the 500 response with the server
    fault body, but the response carries no Connection field: "close" sits
    under the field named "Connection:". *)
Theorem recoverPanic_does_not_mark_connection :
  let out := Api.routes Sample.app Sample.panickingRouter
               (Sample.get [] "10.0.0.1") (Api.arrive Sample.idle) in
  out.1 = Api.Returned /\
  Http.Status (Api.w out.2) = Some Http.StatusInternalServerError /\
  Http.Body (Api.w out.2) = [Http.ErrorBody Http.ServerFault] /\
  Http.RespHeader (Api.w out.2) !! "Connection" = None /\
  Http.RespHeader (Api.w out.2) !! "Connection:" = Some ["close"].
Proof. vm_compute. repeat split. Qed.

(** ** The client registry *)

Section Registry.

Import Http Api.

Variable app : application.

Lemma allowClient_decision ip t (cl : gmap string client) :
  allowClient app ip t cl =
  let c := match cl !! ip with
           | Some c => c
           | None => {| limiter := Limiter.NewLimiter (limiter_rps (cfg app))
                                     (limiter_burst (cfg app)) t;
                        lastSeen := 0 |}
           end in
  ((Limiter.Allow t (limiter c)).1,
   <[ip := {| limiter := (Limiter.Allow t (limiter c)).2; lastSeen := t |}]> cl).
Proof.
  unfold allowClient. cbv zeta. simpl.
  destruct (Limiter.Allow t _). reflexivity.
Qed.

(** The entry of the client itself: stamped, with its limiter advanced. *)
Lemma allowClient_same ip t (cl : gmap string client) :
  exists c, (allowClient app ip t cl).2 !! ip = Some c /\ lastSeen c = t.
Proof.
  rewrite allowClient_decision. cbv zeta. simpl.
  eexists. split; [apply lookup_insert_eq | reflexivity].
Qed.

(** The entries of all other clients are left as they are. *)
Lemma allowClient_other ip other t (cl : gmap string client) :
  ip <> other -> (allowClient app ip t cl).2 !! other = cl !! other.
Proof.
  intros Hne. rewrite allowClient_decision. cbv zeta. simpl.
  now apply lookup_insert_ne.
Qed.

(** The decision and the new entry depend on the client's entry only. *)
Lemma allowClient_local ip t (cl1 cl2 : gmap string client) :
  cl1 !! ip = cl2 !! ip ->
  (allowClient app ip t cl1).1 = (allowClient app ip t cl2).1 /\
  (allowClient app ip t cl1).2 !! ip = (allowClient app ip t cl2).2 !! ip.
Proof.
  intros E. rewrite !allowClient_decision. cbv zeta. simpl. rewrite E.
  split; [reflexivity |]. now rewrite !lookup_insert_eq.
Qed.

Lemma allowClient_keeps ip other t (cl : gmap string client) :
  is_Some (cl !! other) -> is_Some ((allowClient app ip t cl).2 !! other).
Proof.
  intros H. destruct (decide (ip = other)) as [<-|Hne].
  - destruct (allowClient_same ip t cl) as (c & -> & _). eauto.
  - now rewrite allowClient_other.
Qed.

Lemma sweep_lookup clock (cl : gmap string client) ip :
  sweep clock cl !! ip =
  match cl !! ip with
  | Some c => if decide (clock ip - lastSeen c > staleness) then None else Some c
  | None => None
  end.
Proof.
  unfold sweep. rewrite map_lookup_filter.
  destruct (cl !! ip) as [c|]; simpl; [| reflexivity].
  case_guard; destruct (decide _); simpl in *; try reflexivity; contradiction.
Qed.

Lemma sweep_local clock (cl1 cl2 : gmap string client) ip :
  cl1 !! ip = cl2 !! ip -> sweep clock cl1 !! ip = sweep clock cl2 !! ip.
Proof. intros E. rewrite !sweep_lookup. now rewrite E. Qed.

Lemma decisionsFor_arrival who (cl : gmap string client) ip t rest :
  decisionsFor app who cl (Arrival ip t :: rest) =
  if String.eqb ip who
  then (allowClient app ip t cl).1 :: decisionsFor app who (allowClient app ip t cl).2 rest
  else decisionsFor app who (allowClient app ip t cl).2 rest.
Proof. simpl. now destruct (allowClient app ip t cl). Qed.

(** Dropping the requests of [A] from the history changes nothing for
    a client [B] whose entry is the same in both maps. *)
Lemma decisionsFor_without A B accesses : A <> B ->
  forall cl1 cl2 : gmap string client, cl1 !! B = cl2 !! B ->
  decisionsFor app B cl1 accesses = decisionsFor app B cl2 (without A accesses).
Proof.
  intros Hne. induction accesses as [|[ip t|clock] rest IH]; intros cl1 cl2 E.
  - reflexivity.
  - rewrite decisionsFor_arrival. simpl without.
    destruct (String.eqb_spec ip A) as [->|HipA].
    + destruct (String.eqb_spec A B) as [|_]; [contradiction |].
      apply IH. now rewrite allowClient_other.
    + rewrite decisionsFor_arrival.
      destruct (String.eqb_spec ip B) as [->|HipB].
      * destruct (allowClient_local B t cl1 cl2 E) as [Hd Hl].
        rewrite Hd. f_equal. now apply IH.
      * apply IH. now rewrite !allowClient_other.
  - simpl. apply IH. now apply sweep_local.
Qed.

End Registry.

Section KeepsClients.

Import Http Api.

Variable app : application.

Local Ltac keeps Hnext :=
  simpl; first [ assumption | apply Hnext; simpl; assumption ].

Lemma serveOpaque_keeps tag h : keepsClients (serveOpaque tag h).
Proof.
  intros r s ip H. unfold serveOpaque. cbv zeta.
  destruct (h r _) as [[o w'] d]. exact H.
Qed.

Lemma authenticate_keeps next : keepsClients next -> keepsClients (authenticate app next).
Proof.
  intros Hnext r s ip H. unfold authenticate. cbv zeta.
  destruct (String.eqb _ EmptyString); [keeps Hnext |].
  destruct (Split _ _) as [|scheme [|token [|]]]; try keeps Hnext.
  destruct (negb (String.eqb scheme _)); [keeps Hnext |].
  destruct (negb (ValidateTokenPlaintext app token)); [keeps Hnext |].
  destruct (Users_GetForToken app _ _); keeps Hnext.
Qed.

Lemma rateLimit_keeps next : keepsClients next -> keepsClients (rateLimit app next).
Proof.
  intros Hnext r s ip H. unfold rateLimit. cbv zeta.
  destruct (limiter_enabled (cfg app)); [| keeps Hnext].
  pose proof (allowClient_keeps app (realip_FromRequest app r) ip (now s) (clients s) H) as Hk.
  simpl. destruct (allowClient app _ _ _) as [[|] cl]; simpl in *; keeps Hnext.
Qed.

Lemma enableCORS_keeps next : keepsClients next -> keepsClients (enableCORS app next).
Proof.
  intros Hnext r s ip H. unfold enableCORS. cbv zeta.
  destruct (trustedOrigin app r); [destruct (isPreflight r) |]; keeps Hnext.
Qed.

Lemma recoverPanic_keeps next : keepsClients next -> keepsClients (recoverPanic app next).
Proof.
  intros Hnext r s ip H. unfold recoverPanic. cbv zeta.
  specialize (Hnext r (record (Enter RecoverPanic) s) ip H).
  destruct (next r _) as [[|v] s']; exact Hnext.
Qed.

Lemma metrics_keeps next : keepsClients next -> keepsClients (metrics app next).
Proof.
  intros Hnext r s ip H. unfold metrics. cbv zeta.
  match goal with |- context [next r ?s1] => specialize (Hnext r s1 ip H) end.
  destruct (next r _) as [[|v] s']; exact Hnext.
Qed.

Lemma routes_keeps router : keepsClients (routes app router).
Proof.
  unfold routes.
  apply metrics_keeps, recoverPanic_keeps, enableCORS_keeps, rateLimit_keeps,
    authenticate_keeps, serveOpaque_keeps.
Qed.

End KeepsClients.

(** C6. After a pass of the sweep an entry is gone if its [lastSeen] lies
    more than three minutes before the clock reading at which the pass
    looked at it, and is still there, unchanged, if it does not; and
    serving a request, whatever the request, removes no entry. *)
Theorem sweep_evicts_exactly_the_stale (clock : string -> Time)
    (cl : gmap string Api.client) (ip : string) (c : Api.client) :
  cl !! ip = Some c ->
  Api.staleness = 3 * Minute /\
  (clock ip - Api.lastSeen c > 3 * Minute -> Api.sweep clock cl !! ip = None) /\
  (clock ip - Api.lastSeen c <= 3 * Minute -> Api.sweep clock cl !! ip = Some c) /\
  (forall app router r s, Api.clients s = cl ->
     is_Some (Api.clients (Api.routes app router r s).2 !! ip)).
Proof.
  intros Hc. split; [reflexivity |].
  fold Api.staleness. rewrite sweep_lookup, Hc.
  split; [| split].
  - intros Hold. now destruct (decide _).
  - intros Hnew. destruct (decide _); [lia | reflexivity].
  - intros app router r s <-. apply routes_keeps. eauto.
Qed.

(** An entry last seen at second 10 survives the pass at second 190 and is
    gone after the pass at second 191. *)
Lemma sweep_evicts_exactly_the_stale_witness :
  Api.sweep (fun _ => 191 * Second)
    {[ "10.0.0.1" := {| Api.limiter := Limiter.NewLimiter 2 4 (10 * Second);
                        Api.lastSeen := 10 * Second |} ]} !! "10.0.0.1" = None.
Proof.
  apply (sweep_evicts_exactly_the_stale (fun _ => 191 * Second)
           {[ "10.0.0.1" := {| Api.limiter := Limiter.NewLimiter 2 4 (10 * Second);
                               Api.lastSeen := 10 * Second |} ]}
           "10.0.0.1"
           {| Api.limiter := Limiter.NewLimiter 2 4 (10 * Second);
              Api.lastSeen := 10 * Second |}).
  - reflexivity.
  - vm_compute. reflexivity.
Defined.

(** C7. For two distinct clients [A] and [B] and any history of requests
    and sweeps, the decisions handed to the requests of [B] are the same as
    in the history from which the requests of [A] are left out. *)
Theorem clients_do_not_share_tokens (app : Api.application) (A B : string)
    (cl : gmap string Api.client) (accesses : list Api.Access) :
  A <> B ->
  Api.decisionsFor app B cl accesses
  = Api.decisionsFor app B cl (Api.without A accesses).
Proof.
  intros Hne. now apply decisionsFor_without.
Qed.

(** Client 10.0.0.1 uses up its burst and is rejected; the request of
    10.0.0.2 in the middle of it is admitted either way. *)
Lemma clients_do_not_share_tokens_witness :
  Api.decisionsFor Sample.app "10.0.0.2" ∅
    [Api.Arrival "10.0.0.1" 0; Api.Arrival "10.0.0.1" 0; Api.Arrival "10.0.0.1" 0;
     Api.Arrival "10.0.0.1" 0; Api.Arrival "10.0.0.1" 0; Api.Arrival "10.0.0.2" 0]
  = Api.decisionsFor Sample.app "10.0.0.2" ∅
      (Api.without "10.0.0.1"
         [Api.Arrival "10.0.0.1" 0; Api.Arrival "10.0.0.1" 0; Api.Arrival "10.0.0.1" 0;
          Api.Arrival "10.0.0.1" 0; Api.Arrival "10.0.0.1" 0; Api.Arrival "10.0.0.2" 0]).
Proof.
  apply (clients_do_not_share_tokens Sample.app "10.0.0.1" "10.0.0.2"). discriminate.
Defined.

(** ** Shutdown *)

Section Shutdown.

Import Lifecycle.

Lemma run_snoc s evs e :
  run s (evs ++ [e]) = match run s evs with
                       | Some s' => step s' e
                       | None => None
                       end.
Proof.
  revert s. induction evs as [|e0 rest IH]; intros s; simpl.
  - now destruct (step s e).
  - destruct (step s e0); [apply IH | reflexivity].
Qed.

Lemma run_app s evs1 evs2 :
  run s (evs1 ++ evs2) = match run s evs1 with
                         | Some s' => run s' evs2
                         | None => None
                         end.
Proof.
  revert s. induction evs1 as [|e0 rest IH]; intros s; simpl; [reflexivity |].
  destruct (step s e0); [apply IH | reflexivity].
Qed.

Lemma drained_init : drained init.
Proof. split; [exact I | discriminate]. Qed.

Lemma drained_step s e s' : step s e = Some s' -> drained s -> drained s'.
Proof.
  destruct s as [m g q c n h k]. unfold drained, failed.
  intros Hstep [Hg Hm].
  destruct e; simpl in Hstep; repeat case_match; simplify_eq; simpl in *;
    (split; [try tauto | try (intros; simplify_eq; tauto)]).
  all: try (intros; simplify_eq; specialize (Hm eq_refl); discriminate).
  all: intuition (try discriminate; eauto).
Qed.

Lemma drained_run evs : forall s s', run s evs = Some s' -> drained s -> drained s'.
Proof.
  induction evs as [|e rest IH]; simpl; intros s s' Hrun Hd; [now simplify_eq |].
  destruct (step s e) as [s1|] eqn:E; [| discriminate].
  eapply IH; [exact Hrun |]. eapply drained_step; eassumption.
Qed.

(** The goroutine gets past [Wait] only by [Wait] returning. *)
Lemma past_wait_step s e s' :
  step s e = Some s' ->
  gopc s' = SendNil \/ gopc s' = Finished ->
  e = WaitReturns \/ gopc s = SendNil \/ gopc s = Finished.
Proof.
  destruct s as [m g q c n h k]. intros Hstep Hpc.
  destruct e; simpl in Hstep; repeat case_match; simplify_eq; simpl in *;
    intuition (try discriminate; eauto).
Qed.

Lemma past_wait_run evs : forall s,
  run init evs = Some s ->
  gopc s = SendNil \/ gopc s = Finished ->
  WaitReturns ∈ evs.
Proof.
  induction evs as [|e evs IH] using rev_ind; intros s Hrun Hpc.
  - simpl in Hrun. simplify_eq. destruct Hpc; discriminate.
  - rewrite run_snoc in Hrun.
    destruct (run init evs) as [s0|] eqn:E; [| discriminate].
    destruct (past_wait_step _ _ _ Hrun Hpc) as [->|Hprev].
    + apply elem_of_app. right. constructor.
    + apply elem_of_app. left. eapply IH; [reflexivity | exact Hprev].
Qed.

Lemma signalView_init : signalView [] init.
Proof. split; [constructor | repeat split]. Qed.

Lemma delivered_snoc evs e :
  delivered (evs ++ [e]) =
  delivered evs ++ match e with Deliver sig => [sig] | _ => [] end.
Proof. unfold delivered. rewrite omap_app. now destruct e. Qed.

Lemma deliver_notified s sig s' : step s (Deliver sig) = Some s' -> notified sig = true.
Proof.
  simpl. destruct (gopc s); try discriminate; now destruct (notified sig).
Qed.

Lemma signalView_step evs s e s' :
  step s e = Some s' -> signalView evs s -> signalView (evs ++ [e]) s'.
Proof.
  intros Hstep [Hall Hview]. split.
  - rewrite delivered_snoc. apply Forall_app. split; [assumption |].
    destruct e; try constructor; [| constructor].
    eapply deliver_notified; eassumption.
  - rewrite delivered_snoc. clear Hall.
    destruct s as [m g q c n h k].
    destruct e; simpl in Hstep; repeat case_match; simplify_eq; simpl in *;
      rewrite ?app_nil_r; destruct_and?; simplify_eq; repeat split; try done;
      try (destruct (delivered evs); simpl in *; simplify_eq; done).
Qed.

Lemma signalView_run evs : forall s, run init evs = Some s -> signalView evs s.
Proof.
  induction evs as [|e evs IH] using rev_ind; intros s Hrun.
  - simpl in Hrun. simplify_eq. apply signalView_init.
  - rewrite run_snoc in Hrun.
    destruct (run init evs) as [s0|] eqn:E; [| discriminate].
    eapply signalView_step; [exact Hrun | now apply IH].
Qed.

End Shutdown.

(** C1. In every run of [serve], when it has returned nil the counter of
    background tasks is zero, and [Wait] has returned before, in a state
    where the counter was zero; so in no state in which a background task is
    still counted has [serve] returned nil. *)
Theorem completed_only_after_background_tasks (evs : list Lifecycle.Event)
    (s : Lifecycle.State) :
  Lifecycle.run Lifecycle.init evs = Some s ->
  (Lifecycle.completed s ->
     Lifecycle.wg s = 0%nat /\
     exists evs1 evs2 s1,
       evs = evs1 ++ Lifecycle.WaitReturns :: evs2 /\
       Lifecycle.run Lifecycle.init evs1 = Some s1 /\
       Lifecycle.wg s1 = 0%nat) /\
  ((0 < Lifecycle.wg s)%nat -> ~ Lifecycle.completed s).
Proof.
  intros Hrun.
  pose proof (drained_run evs _ _ Hrun drained_init) as [Hgo Hmain].
  assert (Lifecycle.completed s -> Lifecycle.wg s = 0%nat) as Hzero.
  { intros Hc. specialize (Hmain Hc). rewrite Hmain in Hgo.
    unfold Lifecycle.completed in Hc. unfold Lifecycle.failed in Hgo.
    rewrite Hc in Hgo. destruct Hgo as [[_ Hwg]|]; [exact Hwg | discriminate]. }
  split.
  - intros Hc. split; [now apply Hzero |].
    assert (Lifecycle.WaitReturns ∈ evs) as Hin.
    { eapply past_wait_run; [exact Hrun | right; now apply Hmain]. }
    apply list_elem_of_split in Hin as (evs1 & evs2 & ->).
    rewrite run_app in Hrun.
    destruct (Lifecycle.run Lifecycle.init evs1) as [s1|] eqn:E1; [| discriminate].
    exists evs1, evs2, s1. split; [reflexivity |]. split; [exact E1 |].
    simpl in Hrun. destruct (Lifecycle.gopc s1) eqn:Epc; try discriminate.
    destruct (Lifecycle.wg s1) eqn:Ewg; [reflexivity | discriminate].
  - intros Hpos Hc. apply Hzero in Hc. lia.
Qed.

(** A run in which the task started by a handler completes during the
    shutdown, and [serve] returns nil after it. *)
Lemma completed_only_after_background_tasks_witness :
  Lifecycle.wg (Lifecycle.mkState (Lifecycle.ServeReturned None) Lifecycle.Finished
                  [] (Some Lifecycle.SIGINT) 1 false 0) = 0%nat.
Proof.
  apply (completed_only_after_background_tasks
           [Lifecycle.Notify; Lifecycle.Spawn; Lifecycle.Deliver Lifecycle.SIGINT;
            Lifecycle.ReceiveSignal; Lifecycle.ListenClosed;
            Lifecycle.ShutdownReturns None; Lifecycle.TaskDone;
            Lifecycle.WaitReturns; Lifecycle.Handoff]).
  - reflexivity.
  - reflexivity.
Defined.

(** C2. In every run of [serve], [srv.Shutdown] is called at most once:
    not at all before the goroutine has taken a signal from [quit], once
    after, and the signal taken is the first one relayed, SIGINT or SIGTERM;
    when a signal has been relayed the goroutine, if it still waits, can
    take it and begin the shutdown; and a signal relayed after the first is
    dropped while the first is still in [quit], and afterwards changes
    nothing but the unread [quit]. *)
Theorem shutdown_begins_once (evs : list Lifecycle.Event) (s : Lifecycle.State) :
  Lifecycle.run Lifecycle.init evs = Some s ->
  (Lifecycle.shutdownCalls s <= 1)%nat /\
  (Lifecycle.draining s = false ->
     Lifecycle.shutdownCalls s = 0%nat /\ Lifecycle.caught s = None) /\
  (Lifecycle.draining s = true ->
     Lifecycle.shutdownCalls s = 1%nat /\
     exists sig, head (Lifecycle.delivered evs) = Some sig /\
                 Lifecycle.caught s = Some sig /\ Lifecycle.notified sig = true) /\
  (forall sig, Lifecycle.gopc s = Lifecycle.AwaitSignal ->
     head (Lifecycle.delivered evs) = Some sig ->
     exists s', Lifecycle.step s Lifecycle.ReceiveSignal = Some s' /\
                Lifecycle.caught s' = Some sig /\
                Lifecycle.shutdownCalls s' = 1%nat /\
                Lifecycle.draining s' = true) /\
  (forall sig s', Lifecycle.delivered evs <> [] ->
     Lifecycle.step s (Lifecycle.Deliver sig) = Some s' ->
     Lifecycle.shutdownState s' = Lifecycle.shutdownState s /\
     (Lifecycle.draining s = false -> s' = s)).
Proof.
  intros Hrun. destruct (signalView_run evs s Hrun) as [Hall Hview].
  destruct s as [m g q c n h k]. unfold Lifecycle.draining. simpl in *.
  split; [| split; [| split; [| split]]].
  - destruct g; destruct_and?; lia.
  - intros Hd. destruct g; try discriminate; destruct_and?; now split.
  - intros Hd.
    assert (Lifecycle.delivered evs <> [] /\
            c = head (Lifecycle.delivered evs) /\ n = 1%nat) as (Hne & Hc & Hn)
      by (destruct g; try discriminate; exact Hview).
    split; [exact Hn |].
    destruct (Lifecycle.delivered evs) as [|x l]; [contradiction |].
    exists x. repeat split; [exact Hc | now inversion Hall].
  - intros sig -> Hsig. destruct Hview as (Hq & Hc & Hn).
    destruct (Lifecycle.delivered evs) as [|x l]; [discriminate |].
    simpl in Hsig, Hq. simplify_eq. simpl. eexists. repeat split.
  - intros sig s' Hne Hstep.
    destruct g; try discriminate;
      (destruct (Lifecycle.notified sig); [| discriminate]).
    + destruct Hview as (Hq & Hc & Hn).
      destruct (Lifecycle.delivered evs) as [|x l]; [contradiction |].
      simpl in Hq. subst q. simplify_eq. split; [reflexivity | now intros _].
    + destruct q; simplify_eq; (split; [reflexivity | intros; discriminate]).
    + destruct q; simplify_eq; (split; [reflexivity | intros; discriminate]).
    + destruct q; simplify_eq; (split; [reflexivity | intros; discriminate]).
    + destruct q; simplify_eq; (split; [reflexivity | intros; discriminate]).
    + destruct q; simplify_eq; (split; [reflexivity | intros; discriminate]).
Qed.

(** Two signals arrive before the goroutine reads [quit], one after: the
    second is dropped, the shutdown is begun once, for the first. *)
Lemma shutdown_begins_once_witness :
  (Lifecycle.shutdownCalls
     (Lifecycle.mkState Lifecycle.InListenAndServe Lifecycle.InShutdown
        [Lifecycle.SIGINT] (Some Lifecycle.SIGTERM) 1 true 0) <= 1)%nat.
Proof.
  apply (shutdown_begins_once
           [Lifecycle.Notify; Lifecycle.Deliver Lifecycle.SIGTERM;
            Lifecycle.Deliver Lifecycle.SIGINT; Lifecycle.ReceiveSignal;
            Lifecycle.Deliver Lifecycle.SIGINT]).
  reflexivity.
Defined.

(** ** The definitions at work *)

(** An anonymous request passes all six stages and is counted under 200. *)
Example anonymous_request_runs_the_chain :
  let out := Api.routes Sample.app Sample.okRouter (Sample.get [] "10.0.0.1")
               (Api.arrive Sample.idle) in
  out.1 = Api.Returned /\
  Api.stages (Api.trace out.2) = Api.chainOrder /\
  Http.Status (Api.w out.2) = Some 200 /\
  Api.totalResponsesSentbyStatus out.2 !! "200" = Some 1 /\
  Api.totalProcessingTimeMicroseconds out.2 = 1.
Proof. vm_compute. repeat split. Qed.

(** A token without a record is turned away after one lookup. *)
Example stray_token_is_rejected :
  let out := Api.routes Sample.app Sample.okRouter
               (Sample.get [("Authorization", [("Bearer " ++ Sample.strayToken)%string])] "10.0.0.1")
               (Api.arrive Sample.idle) in
  Http.Status (Api.w out.2) = Some 401 /\
  Http.Body (Api.w out.2) = [Http.ErrorBody Http.InvalidCredential] /\
  Api.trace out.2 =
    [Api.Enter Api.Metrics; Api.Enter Api.RecoverPanic; Api.Enter Api.EnableCORS;
     Api.Enter Api.RateLimit; Api.Enter Api.Authenticate;
     Api.GetForToken Api.ScopeAuthentication Sample.strayToken].
Proof. vm_compute. repeat split. Qed.

(** A fault of storage surfaces as the server fault. *)
Example storage_fault_is_a_server_fault :
  let out := Api.routes Sample.app Sample.okRouter
               (Sample.get [("Authorization", [("Bearer " ++ Sample.brokenToken)%string])] "10.0.0.1")
               (Api.arrive Sample.idle) in
  Http.Status (Api.w out.2) = Some 500 /\
  Http.Body (Api.w out.2) = [Http.ErrorBody Http.ServerFault].
Proof. vm_compute. repeat split. Qed.

(** The token of an activated user with the permission reaches the
    guarded handler; without the permission the answer is 403. *)
Example permission_guard_on_alice :
  let r := Http.contextSetUser (Sample.get [] "10.0.0.1") (Http.UserPtr Sample.alice) in
  let guarded code := Api.requirePermissions Sample.app code
                        (Api.serveOpaque Api.Guarded Sample.okRouter) in
  Http.Status (Api.w (guarded "movies:read" r Sample.idle).2) = Some 200 /\
  Http.Body (Api.w (guarded "movies:write" r Sample.idle).2)
  = [Http.ErrorBody Http.PermissionDenied].
Proof. vm_compute. repeat split. Qed.

(** A preflight request from the trusted origin is answered by
    [enableCORS] itself. *)
Example preflight_is_answered_by_cors :
  let r := {| Http.Method := "OPTIONS";
              Http.ReqHeader := list_to_map
                [("Origin", ["https://app.example"]);
                 ("Access-Control-Request-Method", ["PUT"])];
              Http.RemoteAddr := "10.0.0.1"; Http.ctxUser := None |} in
  let out := Api.routes Sample.app Sample.okRouter r (Api.arrive Sample.exhausted) in
  Api.stages (Api.trace out.2) = [Api.Metrics; Api.RecoverPanic; Api.EnableCORS] /\
  Http.Status (Api.w out.2) = Some 200.
Proof. vm_compute. repeat split. Qed.

(** A shutdown that runs into the deadline: [serve] returns the error, and
    the goroutine stays blocked on its last send. *)
Example shutdown_timeout_is_an_error :
  Lifecycle.run Lifecycle.init
    [Lifecycle.Notify; Lifecycle.Deliver Lifecycle.SIGTERM; Lifecycle.ReceiveSignal;
     Lifecycle.ListenClosed; Lifecycle.ShutdownReturns (Some "context deadline exceeded");
     Lifecycle.Handoff; Lifecycle.WaitReturns; Lifecycle.Handoff]
  = None /\
  (Lifecycle.mainpc <$> Lifecycle.run Lifecycle.init
    [Lifecycle.Notify; Lifecycle.Deliver Lifecycle.SIGTERM; Lifecycle.ReceiveSignal;
     Lifecycle.ListenClosed; Lifecycle.ShutdownReturns (Some "context deadline exceeded");
     Lifecycle.Handoff; Lifecycle.WaitReturns])
  = Some (Lifecycle.ServeReturned (Some "context deadline exceeded")).
Proof. split; reflexivity. Qed.

(** ** More on serving and shutting down *)

Section ServeFacts.

Import Lifecycle Serve.

Lemma provenance_init : provenance [] init.
Proof.
  unfold provenance. simpl. repeat split; intros; try discriminate.
  all: exfalso; eapply not_elem_of_nil; eassumption.
Qed.

Lemma provenance_step evs s e s' :
  step s e = Some s' -> provenance evs s -> provenance (evs ++ [e]) s'.
Proof.
  intros Hstep (Hret & Herr & Hto & Hfin & Hawait).
  destruct s as [m g q c n h k]. simpl in *.
  unfold provenance.
  destruct e; simpl in Hstep; repeat case_match; simplify_eq; simpl in *;
    repeat split; intros;
    repeat match goal with
           | H : _ ∈ _ ++ [_] |- _ =>
               apply elem_of_app in H as [H | H%list_elem_of_singleton]
           end;
    simplify_eq;
    try (rewrite elem_of_app, list_elem_of_singleton);
    try lia;
    try (match goal with H : ShutdownReturns (Some ?e) ∈ evs |- _ =>
           destruct (Hto e H) as [? | [[?|?] ?]]; simplify_eq end);
    try (match goal with H : ServeReturned (Some ?e) = ServeReturned (Some ?e) -> _ |- _ =>
           specialize (H eq_refl) end);
    try (match goal with H : forall e, ServeReturned (Some ?x) = ServeReturned (Some e) -> _ |- _ =>
           specialize (H x eq_refl) end);
    try (match goal with H : forall e, SendErr ?x = SendErr e -> _ |- _ =>
           pose proof (H x eq_refl) end);
    try (specialize (Hfin eq_refl); discriminate);
    try (specialize (Hawait eq_refl));
    try rewrite !elem_of_app;
    try rewrite !list_elem_of_singleton;
    try tauto; eauto 6.
  all: intuition (try discriminate; auto).
Qed.

Lemma provenance_run evs : forall s, run init evs = Some s -> provenance evs s.
Proof.
  induction evs as [|e evs IH] using rev_ind; intros s Hrun.
  - simpl in Hrun. simplify_eq. apply provenance_init.
  - rewrite run_snoc in Hrun.
    destruct (run init evs) as [s0|] eqn:E; [| discriminate].
    eapply provenance_step; [exact Hrun | now apply IH].
Qed.

Lemma step_keeps_outcome s e s' r :
  step s e = Some s' -> mainpc s = ServeReturned r -> mainpc s' = ServeReturned r.
Proof.
  destruct s as [m g q c n h k]. simpl. intros Hstep ->.
  destruct e; simpl in Hstep; repeat case_match; simplify_eq; reflexivity.
Qed.

Lemma run_keeps_outcome evs : forall s s' r,
  run s evs = Some s' -> mainpc s = ServeReturned r -> mainpc s' = ServeReturned r.
Proof.
  induction evs as [|e rest IH]; simpl; intros s s' r Hrun Hr; [now simplify_eq |].
  destruct (step s e) as [s1|] eqn:E; [| discriminate].
  eapply IH; [exact Hrun |]. eapply step_keeps_outcome; eassumption.
Qed.

(** In a state that a run reaches, the goroutine is at its end exactly
    when [serve] has returned nil. *)
Lemma finished_iff_completed evs s :
  run init evs = Some s -> gopc s = Finished <-> completed s.
Proof.
  intros Hrun.
  destruct (provenance_run evs s Hrun) as (_ & _ & _ & Hfin & _).
  destruct (drained_run evs _ _ Hrun drained_init) as [_ Hmain].
  split; [exact Hfin | exact Hmain].
Qed.

(** Every counted task completing brings the counter to zero. *)
Lemma run_tasks : forall k m g q c n h,
  run (mkState m g q c n h k) (replicate k TaskDone) = Some (mkState m g q c n h 0).
Proof.
  induction k as [|k IH]; intros; simpl; [reflexivity |]. apply IH.
Qed.

End ServeFacts.

(** X1. The goroutine of [serve] reaches its end exactly when [serve]
    returns nil. Once [serve] has returned an error the value stays, and
    the goroutine never reaches its end: its last send finds no receiver. *)
Theorem goroutine_ends_only_with_success (evs : list Lifecycle.Event)
    (s : Lifecycle.State) :
  Lifecycle.run Lifecycle.init evs = Some s ->
  (Lifecycle.gopc s = Lifecycle.Finished <-> Lifecycle.completed s) /\
  (Lifecycle.failed s = true ->
   forall evs' s', Lifecycle.run s evs' = Some s' ->
     Lifecycle.mainpc s' = Lifecycle.mainpc s /\
     Lifecycle.gopc s' <> Lifecycle.Finished).
Proof.
  intros Hrun. split; [now apply (finished_iff_completed evs) |].
  intros Hfailed evs' s' Hrun'.
  unfold Lifecycle.failed in Hfailed.
  destruct (Lifecycle.mainpc s) as [| |[e|]] eqn:Hm; try discriminate.
  pose proof (run_keeps_outcome evs' s s' (Some e) Hrun' Hm) as Hm'.
  split; [exact Hm' |].
  intros Hfin.
  assert (Lifecycle.run Lifecycle.init (evs ++ evs') = Some s') as Hall
    by (rewrite run_app, Hrun; exact Hrun').
  apply (finished_iff_completed _ _ Hall) in Hfin.
  unfold Lifecycle.completed in Hfin. congruence.
Qed.

(** The shutdown runs into its deadline, [serve] returns the error, and
    the goroutine goes on to [Wait] and then blocks. *)
Lemma goroutine_ends_only_with_success_witness :
  (Lifecycle.gopc
     (Lifecycle.mkState (Lifecycle.ServeReturned (Some "context deadline exceeded"))
        Lifecycle.InWait [] (Some Lifecycle.SIGTERM) 1 true 0)
   = Lifecycle.Finished
   <-> Lifecycle.completed
         (Lifecycle.mkState (Lifecycle.ServeReturned (Some "context deadline exceeded"))
            Lifecycle.InWait [] (Some Lifecycle.SIGTERM) 1 true 0)).
Proof.
  apply (goroutine_ends_only_with_success
           [Lifecycle.Notify; Lifecycle.Deliver Lifecycle.SIGTERM;
            Lifecycle.ReceiveSignal; Lifecycle.ListenClosed;
            Lifecycle.ShutdownReturns (Some "context deadline exceeded");
            Lifecycle.Handoff]).
  reflexivity.
Defined.

(** X2. When [srv.Shutdown] has returned an error, [serve] never returns
    nil; if it has returned, the value is that error, or the error with
    which [ListenAndServe] failed. *)
Theorem failed_shutdown_is_never_success (evs : list Lifecycle.Event)
    (s : Lifecycle.State) (e : string) :
  Lifecycle.run Lifecycle.init evs = Some s ->
  Lifecycle.ShutdownReturns (Some e) ∈ evs ->
  ~ Lifecycle.completed s /\
  (forall r, Lifecycle.mainpc s = Lifecycle.ServeReturned r ->
     r = Some e \/ exists e', r = Some e' /\ Lifecycle.ListenFails e' ∈ evs).
Proof.
  intros Hrun Hin.
  destruct (provenance_run evs s Hrun) as (Hret & _ & Hto & Hfin & _).
  destruct (drained_run evs _ _ Hrun drained_init) as [_ Hmain].
  specialize (Hto e Hin). split.
  - intros Hc. specialize (Hmain Hc).
    destruct Hto as [Hpc | [[Hpc|Hpc] _]]; congruence.
  - intros [e'|] Hr.
    + destruct Hto as [Hpc | [_ Hm]]; [| left; congruence].
      destruct (Hret e' Hr) as [Hl | [_ [Hpc'|Hpc']]]; [| congruence | congruence].
      right. eauto.
    + specialize (Hmain Hr). destruct Hto as [Hpc | [[Hpc|Hpc] _]]; congruence.
Qed.

Lemma failed_shutdown_is_never_success_witness :
  ~ Lifecycle.completed
      (Lifecycle.mkState (Lifecycle.ServeReturned (Some "context deadline exceeded"))
         Lifecycle.SendNil [] (Some Lifecycle.SIGTERM) 1 true 0).
Proof.
  apply (failed_shutdown_is_never_success
           [Lifecycle.Notify; Lifecycle.Deliver Lifecycle.SIGTERM;
            Lifecycle.ReceiveSignal; Lifecycle.ListenClosed;
            Lifecycle.ShutdownReturns (Some "context deadline exceeded");
            Lifecycle.Handoff; Lifecycle.WaitReturns]
           _ "context deadline exceeded").
  - reflexivity.
  - repeat (first [apply list_elem_of_here | apply list_elem_of_further]).
Defined.

(** X3. As long as no signal has been relayed and [ListenAndServe] has not
    failed, [serve] has not returned and is not waiting for the goroutine:
    it is still in [ListenAndServe]. *)
Theorem serve_keeps_listening (evs : list Lifecycle.Event) (s : Lifecycle.State) :
  Lifecycle.run Lifecycle.init evs = Some s ->
  Lifecycle.delivered evs = [] ->
  (forall e, Lifecycle.ListenFails e ∉ evs) ->
  Lifecycle.mainpc s = Lifecycle.InListenAndServe /\
  Lifecycle.shutdownCalls s = 0%nat.
Proof.
  intros Hrun Hnone Hlisten.
  destruct (provenance_run evs s Hrun) as (Hret & _ & _ & Hfin & Hawait).
  destruct (drained_run evs _ _ Hrun drained_init) as [_ Hmain].
  destruct (signalView_run evs s Hrun) as [_ Hview].
  rewrite Hnone in Hview.
  assert (Lifecycle.shutdownCalls s = 0%nat /\
          (Lifecycle.gopc s = Lifecycle.Registering \/
           Lifecycle.gopc s = Lifecycle.AwaitSignal)) as [Hcalls Hpc].
  { destruct (Lifecycle.gopc s); destruct_and?; try done; auto. }
  split; [| exact Hcalls].
  destruct (Lifecycle.mainpc s) as [| |[e|]] eqn:Hm.
  - reflexivity.
  - specialize (Hawait eq_refl). lia.
  - destruct (Hret e eq_refl) as [Hl | [_ [Hw|Hw]]].
    + now apply Hlisten in Hl.
    + destruct Hpc; congruence.
    + destruct Hpc; congruence.
  - specialize (Hmain eq_refl). destruct Hpc; congruence.
Qed.

Lemma serve_keeps_listening_witness :
  Lifecycle.mainpc
    (Lifecycle.mkState Lifecycle.InListenAndServe Lifecycle.AwaitSignal [] None 0 true 1)
  = Lifecycle.InListenAndServe /\
  Lifecycle.shutdownCalls
    (Lifecycle.mkState Lifecycle.InListenAndServe Lifecycle.AwaitSignal [] None 0 true 1)
  = 0%nat.
Proof.
  apply (serve_keeps_listening
           [Lifecycle.Notify; Lifecycle.Spawn; Lifecycle.Spawn; Lifecycle.TaskDone]).
  - reflexivity.
  - reflexivity.
  - intros e Hin.
    repeat (apply elem_of_cons in Hin as [Hin|Hin]; [discriminate |]).
    now apply not_elem_of_nil in Hin.
Defined.

(** X4. From every state that a run reaches and in which no error has come
    up, [serve] can still return nil: a signal is relayed if none is
    waiting, [Shutdown] succeeds, the counted tasks complete, [Wait]
    returns and the nil is handed over. *)
Theorem graceful_completion_stays_possible (evs : list Lifecycle.Event)
    (s : Lifecycle.State) :
  Lifecycle.run Lifecycle.init evs = Some s ->
  Serve.healthy s = true ->
  exists s', Lifecycle.run s (Serve.gracefully s) = Some s' /\ Lifecycle.completed s'.
Proof.
  intros Hrun Hhealthy.
  destruct (provenance_run evs s Hrun) as (_ & _ & _ & Hfin & Hawait).
  destruct (drained_run evs _ _ Hrun drained_init) as [_ Hmain].
  destruct (signalView_run evs s Hrun) as [_ Hview].
  destruct s as [m g q c n h k].
  unfold Serve.healthy, Lifecycle.failed in Hhealthy.
  unfold Serve.gracefully, Serve.untilWaited, Serve.untilReturned, Lifecycle.completed.
  simpl in *.
  assert (forall m' g' q' c' n' h' rest,
            Lifecycle.run (Lifecycle.mkState m' g' q' c' n' h' k)
              (replicate k Lifecycle.TaskDone ++ rest)
            = Lifecycle.run (Lifecycle.mkState m' g' q' c' n' h' 0) rest) as Htasks.
  { intros. now rewrite run_app, run_tasks. }
  destruct g; try discriminate.
  - (* not yet registered *)
    destruct Hview as (_ & -> & _ & ->).
    destruct m as [| |[e|]]; try discriminate;
      try (specialize (Hawait eq_refl); lia);
      try (specialize (Hmain eq_refl); discriminate).
    simpl. rewrite <- app_assoc, Htasks. simpl. eauto.
  - (* waiting for a signal *)
    destruct Hview as (_ & _ & ->).
    destruct m as [| |[e|]]; try discriminate;
      try (specialize (Hawait eq_refl); lia);
      try (specialize (Hmain eq_refl); discriminate).
    destruct q as [|sig rest]; simpl; rewrite <- app_assoc, Htasks; simpl; eauto.
  - (* in Shutdown *)
    destruct Hview as (_ & _ & ->).
    destruct m as [| |[e|]]; try discriminate;
      try (specialize (Hmain eq_refl); discriminate);
      simpl; rewrite <- app_assoc, Htasks; simpl; eauto.
  - (* an error is waiting to be sent *)
    rewrite andb_false_r in Hhealthy. discriminate.
  - (* in Wait *)
    destruct Hview as (_ & _ & ->).
    destruct m as [| |[e|]]; try discriminate;
      try (specialize (Hmain eq_refl); discriminate);
      rewrite <- app_assoc, Htasks; simpl; eauto.
  - (* about to send nil *)
    destruct Hview as (_ & _ & ->).
    destruct m as [| |[e|]]; try discriminate;
      try (specialize (Hmain eq_refl); discriminate);
      simpl; eauto.
  - (* at the end *)
    specialize (Hfin eq_refl). subst m. simpl. eauto.
Qed.

(** Two tasks are running and no signal has come yet. *)
Lemma graceful_completion_stays_possible_witness :
  exists s',
    Lifecycle.run
      (Lifecycle.mkState Lifecycle.InListenAndServe Lifecycle.AwaitSignal [] None 0 true 2)
      (Serve.gracefully
         (Lifecycle.mkState Lifecycle.InListenAndServe Lifecycle.AwaitSignal [] None 0 true 2))
    = Some s' /\ Lifecycle.completed s'.
Proof.
  apply (graceful_completion_stays_possible
           [Lifecycle.Notify; Lifecycle.Spawn; Lifecycle.Spawn]); reflexivity.
Defined.

(** ** More on the middleware chain *)

Section ChainFacts.

Import Http Api Middleware.

Variable app : application.

Local Ltac through Hnext :=
  simpl; first [ reflexivity | assumption | apply Hnext | lia ].

Local Ltac stage_cases :=
  repeat match goal with
         | |- context [if ?b then _ else _] => destruct b eqn:?
         | |- context [match Split ?h ?c with _ => _ end] =>
             destruct (Split h c) as [|? [|? [|]]]
         | |- context [match Users_GetForToken ?a ?b ?c with _ => _ end] =>
             destruct (Users_GetForToken a b c)
         | |- context [match allowClient ?a ?b ?c ?d with _ => _ end] =>
             destruct (allowClient a b c d) as [[|] ?]
         end.

Lemma serveOpaque_counters tag h : keepsCounters (serveOpaque tag h).
Proof.
  intros r s. unfold serveOpaque. cbv zeta. now destruct (h r _) as [[o w'] d].
Qed.

Lemma serveOpaque_clock tag h : clockAdvances (serveOpaque tag h).
Proof.
  intros r s. unfold serveOpaque. cbv zeta. destruct (h r _) as [[o w'] d].
  simpl. lia.
Qed.

Lemma serveOpaque_sameClients tag h : sameClients (serveOpaque tag h).
Proof.
  intros r s. unfold serveOpaque. cbv zeta. now destruct (h r _) as [[o w'] d].
Qed.

Lemma authenticate_counters next : keepsCounters next -> keepsCounters (authenticate app next).
Proof.
  intros Hnext r s. unfold authenticate. cbv zeta.
  stage_cases; first [ reflexivity | now rewrite Hnext ].
Qed.

Lemma authenticate_clock next : clockAdvances next -> clockAdvances (authenticate app next).
Proof.
  intros Hnext r s. unfold authenticate. cbv zeta.
  stage_cases; simpl; try lia;
    match goal with |- _ <= now (next ?r' ?s').2 => apply (Hnext r' s') end.
Qed.

Lemma authenticate_sameClients next : sameClients next -> sameClients (authenticate app next).
Proof.
  intros Hnext r s. unfold authenticate. cbv zeta.
  stage_cases; first [ reflexivity | now rewrite Hnext ].
Qed.

Lemma rateLimit_counters next : keepsCounters next -> keepsCounters (rateLimit app next).
Proof.
  intros Hnext r s. unfold rateLimit. cbv zeta.
  stage_cases; simpl; first [ reflexivity | now rewrite Hnext ].
Qed.

Lemma rateLimit_clock next : clockAdvances next -> clockAdvances (rateLimit app next).
Proof.
  intros Hnext r s. unfold rateLimit. cbv zeta.
  stage_cases; simpl; try lia;
    match goal with |- _ <= now (next ?r' ?s').2 => apply (Hnext r' s') end.
Qed.

Lemma enableCORS_counters next : keepsCounters next -> keepsCounters (enableCORS app next).
Proof.
  intros Hnext r s. unfold enableCORS. cbv zeta.
  stage_cases; simpl; first [ reflexivity | now rewrite Hnext ].
Qed.

Lemma enableCORS_clock next : clockAdvances next -> clockAdvances (enableCORS app next).
Proof.
  intros Hnext r s. unfold enableCORS. cbv zeta.
  stage_cases; simpl; try lia;
    match goal with |- _ <= now (next ?r' ?s').2 => apply (Hnext r' s') end.
Qed.

Lemma enableCORS_sameClients next : sameClients next -> sameClients (enableCORS app next).
Proof.
  intros Hnext r s. unfold enableCORS. cbv zeta.
  stage_cases; simpl; first [ reflexivity | now rewrite Hnext ].
Qed.

Lemma recoverPanic_counters next : keepsCounters next -> keepsCounters (recoverPanic app next).
Proof.
  intros Hnext r s. unfold recoverPanic. cbv zeta.
  specialize (Hnext r (record (Enter RecoverPanic) s)).
  destruct (next r _) as [[|v] s']; exact Hnext.
Qed.

Lemma recoverPanic_clock next : clockAdvances next -> clockAdvances (recoverPanic app next).
Proof.
  intros Hnext r s. unfold recoverPanic. cbv zeta.
  specialize (Hnext r (record (Enter RecoverPanic) s)).
  destruct (next r _) as [[|v] s']; exact Hnext.
Qed.

Lemma recoverPanic_sameClients next : sameClients next -> sameClients (recoverPanic app next).
Proof.
  intros Hnext r s. unfold recoverPanic. cbv zeta.
  specialize (Hnext r (record (Enter RecoverPanic) s)).
  destruct (next r _) as [[|v] s']; exact Hnext.
Qed.

Lemma recoverPanic_neverPanics next : neverPanics (recoverPanic app next).
Proof.
  intros r s. unfold recoverPanic. cbv zeta.
  now destruct (next r _) as [[|v] s'].
Qed.

Lemma metrics_sameClients next : sameClients next -> sameClients (metrics app next).
Proof.
  intros Hnext r s. unfold metrics. cbv zeta.
  match goal with |- context [next r ?s1] => specialize (Hnext r s1) end.
  destruct (next r _) as [[|v] s']; exact Hnext.
Qed.

End ChainFacts.

(** X5. Whatever the request and whatever the router does, panicking
    included, a call of the chain built by [routes] returns, and counts the
    request once: one more request received, one more response sent, one
    more under the status of the response (200 when no status was written),
    and a processing time that does not decrease. *)
Theorem routes_returns_and_counts_once (app : Api.application)
    (router : Api.Opaque) (r : Http.Request) (s : Api.State) :
  let out := Api.routes app router r s in
  out.1 = Api.Returned /\
  Api.totalRequestsReceived out.2 = Api.totalRequestsReceived s + 1 /\
  Api.totalResponsesSent out.2 = Api.totalResponsesSent s + 1 /\
  Api.totalResponsesSentbyStatus out.2
  = Api.mapAdd (Api.Itoa (default Http.StatusOK (Http.Status (Api.w out.2)))) 1
      (Api.totalResponsesSentbyStatus s) /\
  Api.totalProcessingTimeMicroseconds s <= Api.totalProcessingTimeMicroseconds out.2.
Proof.
  unfold Api.routes.
  set (inner := Api.enableCORS app (Api.rateLimit app
                  (Api.authenticate app (Api.serveOpaque Api.Router router)))).
  assert (Middleware.keepsCounters (Api.recoverPanic app inner)) as Hcount.
  { apply recoverPanic_counters, enableCORS_counters, rateLimit_counters,
      authenticate_counters, serveOpaque_counters. }
  assert (Middleware.clockAdvances (Api.recoverPanic app inner)) as Hclock.
  { apply recoverPanic_clock, enableCORS_clock, rateLimit_clock,
      authenticate_clock, serveOpaque_clock. }
  pose proof (recoverPanic_neverPanics app inner) as Hreturns.
  unfold Api.metrics. cbv zeta.
  match goal with |- context [Api.recoverPanic app inner r ?s1] =>
    specialize (Hcount r s1); specialize (Hclock r s1); specialize (Hreturns r s1);
    destruct (Api.recoverPanic app inner r s1) as [o s'] end.
  simpl in Hreturns. subst o.
  unfold Middleware.counters in Hcount. simpl in Hcount, Hclock.
  injection Hcount as Hrecv Hsent Htime Htally.
  simpl. rewrite Hrecv, Hsent, Htime, Htally. repeat split.
  unfold Api.Microseconds.
  pose proof (Z.quot_pos (Api.now s' - Api.now s) 1000 ltac:(lia) ltac:(lia)). lia.
Qed.

(** X6. A preflight request from a trusted origin is answered by
    [enableCORS] with status 200, the origin echoed and the three preflight
    fields; the router is not called, and the limiter is not asked: the
    [clients] map is as before, even for a client whose bucket is empty. *)
Theorem preflight_bypasses_the_limiter (app : Api.application)
    (r : Http.Request) (s : Api.State) :
  Api.trustedOrigin app r = true -> Api.isPreflight r = true ->
  exists s',
    (forall router, Api.routes app router r (Api.arrive s) = (Api.Returned, s')) /\
    Http.Status (Api.w s') = Some Http.StatusOK /\
    Http.Body (Api.w s') = [] /\
    Http.RespHeader (Api.w s') !! "Access-Control-Allow-Origin"
    = Some [Http.Get (Http.ReqHeader r) "Origin"] /\
    Http.RespHeader (Api.w s') !! "Access-Control-Allow-Methods"
    = Some ["OPTIONS, PUT, PATCH, DELETE"] /\
    Http.RespHeader (Api.w s') !! "Access-Control-Allow-Headers"
    = Some ["Authorization, Content-Type"] /\
    Http.RespHeader (Api.w s') !! "Access-Control-Max-Age" = Some ["60"] /\
    Api.clients s' = Api.clients s /\
    Api.stages (Api.trace s') = [Api.Metrics; Api.RecoverPanic; Api.EnableCORS].
Proof.
  intros Htrusted Hpre.
  unfold Api.routes, Api.metrics, Api.recoverPanic, Api.enableCORS. cbv zeta.
  rewrite Htrusted, Hpre. cbn. eexists. repeat split.
Qed.

Lemma preflight_bypasses_the_limiter_witness :
  exists s',
    (forall router,
       Api.routes Sample.app router
         {| Http.Method := "OPTIONS";
            Http.ReqHeader := list_to_map
              [("Origin", ["https://app.example"]);
               ("Access-Control-Request-Method", ["PUT"])];
            Http.RemoteAddr := "10.0.0.1"; Http.ctxUser := None |}
         (Api.arrive Sample.exhausted) = (Api.Returned, s')) /\
    Http.Status (Api.w s') = Some Http.StatusOK.
Proof.
  destruct (preflight_bypasses_the_limiter Sample.app
              {| Http.Method := "OPTIONS";
                 Http.ReqHeader := list_to_map
                   [("Origin", ["https://app.example"]);
                    ("Access-Control-Request-Method", ["PUT"])];
                 Http.RemoteAddr := "10.0.0.1"; Http.ctxUser := None |}
              Sample.exhausted) as (s' & Hall & Hstatus & _).
  - vm_compute. reflexivity.
  - vm_compute. reflexivity.
  - exists s'. split; assumption.
Defined.

(** X7. A request from a trusted origin that the limiter rejects gets the
    429 response with the Access-Control-Allow-Origin field set to its
    origin, [enableCORS] running before [rateLimit]; the Vary field of that
    response names Access-Control-Request-Method only, the value Origin
    having been replaced by the second [Set]. *)
Theorem limited_response_carries_the_origin (app : Api.application)
    (r : Http.Request) (s : Api.State) :
  Api.limiter_enabled (Api.cfg app) = true ->
  Api.trustedOrigin app r = true -> Api.isPreflight r = false ->
  (Api.allowClient app (Api.realip_FromRequest app r) (Api.now s) (Api.clients s)).1 = false ->
  exists s',
    (forall router, Api.routes app router r (Api.arrive s) = (Api.Returned, s')) /\
    Http.Status (Api.w s') = Some Http.StatusTooManyRequests /\
    Http.RespHeader (Api.w s') !! "Access-Control-Allow-Origin"
    = Some [Http.Get (Http.ReqHeader r) "Origin"] /\
    Http.RespHeader (Api.w s') !! "Vary" = Some ["Access-Control-Request-Method"].
Proof.
  intros Hen Htrusted Hpre Hadm.
  destruct (Api.allowClient app _ _ _) as [ok cl] eqn:E. simpl in Hadm. subst ok.
  unfold Api.routes, Api.metrics, Api.recoverPanic, Api.enableCORS, Api.rateLimit.
  cbv zeta. rewrite Hen, Htrusted, Hpre.
  cbn -[Api.allowClient]. rewrite E. cbn. eexists. repeat split.
Qed.

Lemma limited_response_carries_the_origin_witness :
  exists s',
    (forall router,
       Api.routes Sample.app router
         (Sample.get [("Origin", ["https://app.example"])] "10.0.0.1")
         (Api.arrive Sample.exhausted) = (Api.Returned, s')) /\
    Http.Status (Api.w s') = Some Http.StatusTooManyRequests /\
    Http.RespHeader (Api.w s') !! "Access-Control-Allow-Origin"
    = Some ["https://app.example"].
Proof.
  destruct (limited_response_carries_the_origin Sample.app
              (Sample.get [("Origin", ["https://app.example"])] "10.0.0.1")
              Sample.exhausted) as (s' & Hall & Hstatus & Horigin & _).
  - reflexivity.
  - vm_compute. reflexivity.
  - vm_compute. reflexivity.
  - vm_compute. reflexivity.
  - exists s'. repeat split; assumption.
Defined.

(** X8. With the limiter switched off in the configuration no request
    touches the [clients] map: no entry is made and none is changed. *)
Theorem disabled_limiter_keeps_no_clients (app : Api.application)
    (router : Api.Opaque) (r : Http.Request) (s : Api.State) :
  Api.limiter_enabled (Api.cfg app) = false ->
  Api.clients (Api.routes app router r s).2 = Api.clients s.
Proof.
  intros Hoff. unfold Api.routes.
  apply metrics_sameClients, recoverPanic_sameClients, enableCORS_sameClients.
  intros r' s'. unfold Api.rateLimit. cbv zeta. rewrite Hoff.
  now rewrite authenticate_sameClients by apply serveOpaque_sameClients.
Qed.

Lemma disabled_limiter_keeps_no_clients_witness :
  Api.clients
    (Api.routes
       (Api.mkApp (Api.mkConfig 2 4 false []) (Api.Users_GetForToken Sample.app)
          (Api.Permissions_GetAllForUser Sample.app)
          (Api.ValidateTokenPlaintext Sample.app) Http.RemoteAddr)
       Sample.okRouter (Sample.get [] "10.0.0.1") Sample.idle).2
  = Api.clients Sample.idle.
Proof.
  apply (disabled_limiter_keeps_no_clients
           (Api.mkApp (Api.mkConfig 2 4 false []) (Api.Users_GetForToken Sample.app)
              (Api.Permissions_GetAllForUser Sample.app)
              (Api.ValidateTokenPlaintext Sample.app) Http.RemoteAddr)).
  reflexivity.
Defined.

(** X9. Behind [authenticate] the guards always find an identity in the
    request context: if the guarded handler does not panic, neither does
    [authenticate] followed by [requirePermissions]. *)
Theorem guards_find_the_identity (app : Api.application) (code : string)
    (next : Api.Handler) (r : Http.Request) (s : Api.State) :
  Middleware.neverPanics next ->
  (Api.authenticate app (Api.requirePermissions app code next) r s).1 = Api.Returned.
Proof.
  intros Hnext.
  assert (forall u r' s',
            (Api.requirePermissions app code next
               (Http.contextSetUser r' u) s').1 = Api.Returned) as Hguard.
  { intros u r' s'.
    unfold Api.requirePermissions, Api.requireActivatedUser,
      Api.requireAuthenticatedUser, Api.contextGetUser. cbv zeta. simpl.
    destruct u as [|[id activated]]; simpl; [reflexivity |].
    destruct activated; simpl; [| reflexivity].
    destruct (Api.Permissions_GetAllForUser app id) as [ps| |]; try reflexivity.
    destruct (Api.Include ps code); simpl; [apply Hnext | reflexivity]. }
  unfold Api.authenticate. cbv zeta.
  destruct (String.eqb _ EmptyString); [apply Hguard |].
  destruct (Http.Split _ _) as [|scheme [|token [|]]]; try reflexivity.
  destruct (negb (String.eqb scheme _)); [reflexivity |].
  destruct (negb (Api.ValidateTokenPlaintext app token)); [reflexivity |].
  destruct (Api.Users_GetForToken app _ _); try reflexivity. apply Hguard.
Qed.

Lemma guards_find_the_identity_witness :
  (Api.authenticate Sample.app
     (Api.requirePermissions Sample.app "movies:read"
        (Api.serveOpaque Api.Guarded Sample.okRouter))
     (Sample.get [] "10.0.0.1") Sample.idle).1 = Api.Returned.
Proof.
  apply (guards_find_the_identity Sample.app "movies:read"
           (Api.serveOpaque Api.Guarded Sample.okRouter)).
  intros r s. reflexivity.
Defined.

(** X10. The checks written out in [exampleHandler] are those of the
    [requireActivatedUser] middleware: for every request and state the
    handler behaves as its remaining logic wrapped in that middleware. *)
Theorem exampleHandler_is_requireActivatedUser (app : Api.application)
    (rest : Api.Handler) (r : Http.Request) (s : Api.State) :
  Middleware.exampleHandler app rest r s = Api.requireActivatedUser app rest r s.
Proof.
  unfold Middleware.exampleHandler, Api.requireActivatedUser,
    Api.requireAuthenticatedUser. cbv zeta.
  destruct (Api.contextGetUser r) as [u|]; [| reflexivity].
  destruct (Http.IsAnonymous u); reflexivity.
Qed.



(** X12. A request that reaches the limiter, admitted or rejected, leaves
    an entry for its client stamped with the time of the request; a pass of
    the sweep that looks at the entry no later than three minutes after
    keeps it. *)
Theorem request_keeps_the_entry_alive (app : Api.application) (ip : string)
    (t : Time) (cl : gmap string Api.client) (clock : string -> Time) :
  clock ip - t <= 3 * Minute ->
  exists c,
    Api.sweep clock (Api.allowClient app ip t cl).2 !! ip = Some c /\
    Api.lastSeen c = t.
Proof.
  intros Hrecent.
  destruct (allowClient_same app ip t cl) as (c & Hc & Hseen).
  exists c. split; [| exact Hseen].
  rewrite sweep_lookup, Hc, Hseen. fold Api.staleness in Hrecent.
  destruct (decide _); [lia | reflexivity].
Qed.

Lemma request_keeps_the_entry_alive_witness :
  exists c,
    Api.sweep (fun _ => 180 * Second)
      (Api.allowClient Sample.app "10.0.0.1" 0 (Api.clients Sample.exhausted)).2
      !! "10.0.0.1" = Some c /\
    Api.lastSeen c = 0.
Proof.
  apply (request_keeps_the_entry_alive Sample.app "10.0.0.1" 0
           (Api.clients Sample.exhausted) (fun _ => 180 * Second)).
  vm_compute. discriminate.
Defined.

Section Burst.

Import Http Api Middleware.

Variable app : application.





End Burst.



(** ** The logger *)

(** X14. Whatever is logged through [PrintInfo], [PrintError] and [Write],
    the destination receives exactly the entries whose level is not below
    the minimum level of the logger, in the order of the calls, each as one
    line ended by a newline; nothing written earlier is changed, and the
    minimum level stays. A logger whose minimum level is above ERROR
    writes nothing. *)
Theorem logger_writes_the_calls_at_its_level
    (Marshal : Jsonlog.LogEntry -> string + string)
    (calls : list Jsonlog.Call) (l : Jsonlog.Logger) :
  let l' := foldl (fun l c => Jsonlog.call Marshal c l) l calls in
  Jsonlog.minLevel l' = Jsonlog.minLevel l /\
  Jsonlog.out l' =
    Jsonlog.out l ++
    map (fun c => (Jsonlog.callLine Marshal c ++ Jsonlog.newline)%string)
      (filter (fun c => Jsonlog.minLevel l <= Jsonlog.callLevel c) calls) /\
  (Jsonlog.LevelError < Jsonlog.minLevel l -> Jsonlog.out l' = Jsonlog.out l).
Proof.
  revert l. induction calls as [|c rest IH]; intros l; simpl.
  - rewrite app_nil_r. repeat split; reflexivity.
  - assert (Jsonlog.minLevel (Jsonlog.call Marshal c l) = Jsonlog.minLevel l /\
            Jsonlog.out (Jsonlog.call Marshal c l) =
            Jsonlog.out l ++
            (if decide (Jsonlog.minLevel l <= Jsonlog.callLevel c)
             then [(Jsonlog.callLine Marshal c ++ Jsonlog.newline)%string] else []))
      as [Hmin Hout].
    { destruct c; simpl;
        unfold Jsonlog.PrintInfo, Jsonlog.PrintError, Jsonlog.Write, Jsonlog.print;
        match goal with |- context [?a <? ?b] => destruct (Z.ltb_spec a b) end;
        destruct (decide _); simpl; try lia; rewrite ?app_nil_r; split; reflexivity. }
    destruct (IH (Jsonlog.call Marshal c l)) as (IHmin & IHout & IHoff).
    rewrite Hmin in IHmin, IHout, IHoff.
    split; [exact IHmin |]. split.
    + rewrite IHout, Hout, filter_cons.
      destruct (decide _); simpl; now rewrite <- app_assoc.
    + intros Hoff. rewrite (IHoff Hoff), Hout.
      destruct (decide _) as [Hle|_]; [| now rewrite app_nil_r].
      destruct c; simpl in Hle; unfold Jsonlog.LevelError, Jsonlog.LevelInfo in *; lia.
Qed.

Lemma logger_writes_the_calls_at_its_level_witness :
  Jsonlog.out
    (foldl (fun l c => Jsonlog.call (fun e => inl (Jsonlog.EntryMessage e)) c l)
       (Jsonlog.NewLogger Jsonlog.LevelOff)
       [Jsonlog.CallInfo "starting server" None (Jsonlog.mkMoment "t1" "trace");
        Jsonlog.CallWrite "http: panic serving" (Jsonlog.mkMoment "t2" "trace")])
  = Jsonlog.out (Jsonlog.NewLogger Jsonlog.LevelOff).
Proof.
  apply (logger_writes_the_calls_at_its_level
           (fun e => inl (Jsonlog.EntryMessage e))
           [Jsonlog.CallInfo "starting server" None (Jsonlog.mkMoment "t1" "trace");
            Jsonlog.CallWrite "http: panic serving" (Jsonlog.mkMoment "t2" "trace")]
           (Jsonlog.NewLogger Jsonlog.LevelOff)).
  reflexivity.
Defined.

(** X15. When [serve] has returned: the process ends with status 0 exactly
    when [serve] returned nil and closing the pool succeeded, and with
    status 1 otherwise, whatever the minimum level of the logger; after an
    error of [serve] the deferred [db.Close] is never called; and the fatal
    entry is written only if the minimum level is not above FATAL. *)
Theorem exit_status_after_serve (Marshal : Jsonlog.LogEntry -> string + string)
    (served closed : option string) (m : Jsonlog.Moment) (l : Jsonlog.Logger) :
  let '(l', status, closeCalled) := Jsonlog.mainTail Marshal served closed m l in
  (status = 0 <-> served = None /\ closed = None) /\
  (status = 0 \/ status = 1) /\
  (closeCalled = true <-> served = None) /\
  (Jsonlog.LevelFatal < Jsonlog.minLevel l -> Jsonlog.out l' = Jsonlog.out l) /\
  (status = 1 -> Jsonlog.minLevel l <= Jsonlog.LevelFatal ->
   exists bytes, Jsonlog.out l' = Jsonlog.out l ++ [bytes]).
Proof.
  unfold Jsonlog.mainTail, Jsonlog.PrintFatal, Jsonlog.print.
  destruct served as [e|]; [| destruct closed as [e|]]; simpl;
    try (destruct (Z.ltb_spec Jsonlog.LevelFatal (Jsonlog.minLevel l))); simpl;
    repeat split; intros; destruct_and?; try discriminate; try lia; eauto.
Qed.

(** ** The JSON form of a runtime *)

Section RuntimeFacts.

Import Http Runtime.

Lemma parseDigits_numeral (d : Decimal.uint) : forall acc,
  parseDigits acc (NilEmpty.string_of_uint d) = Some (uintValue acc d).
Proof.
  induction d; intros acc; simpl; [reflexivity | ..];
    match goal with |- context [Z.of_nat (nat_of_ascii ?c)] =>
      let v := eval vm_compute in (Z.of_nat (nat_of_ascii c)) in
      change (Z.of_nat (nat_of_ascii c)) with v end;
    rewrite IHd; do 2 f_equal; lia.
Qed.

Lemma uintValue_acc (d : Decimal.uint) : forall acc : positive,
  uintValue (Z.pos acc) d = Z.pos (Pos.of_uint_acc d acc).
Proof.
  induction d; intros acc; simpl; try reflexivity;
    rewrite <- IHd; f_equal; lia.
Qed.

Lemma uintValue_zero (d : Decimal.uint) : uintValue 0 d = Z.of_N (Pos.of_uint d).
Proof.
  induction d; simpl; try reflexivity; try exact IHd;
    match goal with |- uintValue ?k _ = _ =>
      change k with (Z.pos (Z.to_pos k)); rewrite uintValue_acc; reflexivity end.
Qed.

Lemma to_uint_not_nil (p : positive) : Pos.to_uint p <> Decimal.Nil.
Proof.
  intros E. pose proof (DecimalPos.Unsigned.of_to p) as H.
  rewrite E in H. discriminate.
Qed.

Lemma parseDigits_positive (p : positive) :
  parseDigits 0 (NilEmpty.string_of_uint (Pos.to_uint p)) = Some (Z.pos p).
Proof.
  rewrite parseDigits_numeral, uintValue_zero, DecimalPos.Unsigned.of_to. reflexivity.
Qed.

Lemma numeral_no_space (d : Decimal.uint) :
  contains " " (NilEmpty.string_of_uint d) = false.
Proof. induction d; simpl; auto. Qed.

Lemma formatInt_no_space (z : Z) : contains " " (formatInt z) = false.
Proof.
  unfold formatInt. destruct z; simpl; auto using numeral_no_space.
Qed.

(** Reading back what [%d] printed gives the number, if it is an int32. *)
Lemma ParseInt32_formatInt (z : Z) : isInt32 z -> ParseInt32 (formatInt z) = Some z.
Proof.
  unfold isInt32, formatInt. intros Hrange. destruct z as [|p|p]; simpl.
  - reflexivity.
  - pose proof (parseDigits_positive p) as Hp. pose proof (to_uint_not_nil p) as Hn.
    destruct (Pos.to_uint p); try contradiction; simpl in *;
      unfold ParseInt32; simpl; rewrite Hp;
      (destruct (Z.ltb_spec (Z.pos p) (2 ^ 31)); [reflexivity | lia]).
  - pose proof (parseDigits_positive p) as Hp. pose proof (to_uint_not_nil p) as Hn.
    unfold ParseInt32. simpl.
    destruct (Pos.to_uint p); try contradiction; simpl in *; rewrite Hp;
      (destruct (Z.leb_spec (Z.pos p) (2 ^ 31)); [reflexivity | lia]).
Qed.

(** What [ParseInt32] returns is an int32. *)
Lemma ParseInt32_range (s : string) (i : Z) : ParseInt32 s = Some i -> isInt32 i.
Proof.
  unfold ParseInt32, isInt32. destruct s as [|c rest]; [discriminate |].
  assert (forall acc t un, 0 <= acc -> parseDigits acc t = Some un -> 0 <= un) as Hpos.
  { intros acc t. revert acc. induction t as [|x t IH]; simpl; intros acc un Hacc H.
    - now simplify_eq.
    - unfold digit in H.
      destruct (_ && _) eqn:E; [| discriminate].
      apply andb_true_iff in E as [E1%Z.leb_le E2%Z.leb_le].
      eapply IH; [| exact H]. lia. }
  intros H. repeat case_match; simplify_eq;
    repeat match goal with
           | H : parseDigits 0 _ = Some _ |- _ => apply Hpos in H; [| lia]
           | H : (_ <=? _) = true |- _ => apply Z.leb_le in H
           | H : (_ <? _) = true |- _ => apply Z.ltb_lt in H
           end; lia.
Qed.

End RuntimeFacts.

(** X16. Encoding a runtime and decoding the result gives the runtime
    back, for every int32, negative numbers and zero included, given that
    [strconv.Unquote] undoes [strconv.Quote]. *)
Theorem runtime_json_round_trip (Quote : string -> string)
    (Unquote : string -> option string) (r : Z) :
  (forall s, Unquote (Quote s) = Some s) ->
  Runtime.isInt32 r ->
  Runtime.UnmarshalJSON Unquote (Runtime.MarshalJSON Quote r) = Some r.
Proof.
  intros Hquote Hrange. unfold Runtime.UnmarshalJSON, Runtime.MarshalJSON.
  cbv zeta. rewrite Hquote.
  change (Runtime.formatInt r ++ " mins")%string
    with (Runtime.formatInt r ++ String " " "mins")%string.
  rewrite Split_append by apply formatInt_no_space.
  rewrite (Split_whole " " "mins") by reflexivity.
  simpl. now apply ParseInt32_formatInt.
Qed.

Lemma runtime_json_round_trip_witness :
  Runtime.UnmarshalJSON Some (Runtime.MarshalJSON (fun s => s) (-2147483648))
  = Some (-2147483648).
Proof.
  apply (runtime_json_round_trip (fun s => s) Some (-2147483648)).
  - intros s. reflexivity.
  - unfold Runtime.isInt32. lia.
Defined.

(** X17. [UnmarshalJSON] accepts a value exactly when it unquotes to a
    number, one space and the word mins, where the number is what
    [ParseInt] takes for an int32: a sign, plus included, and leading zeros
    are let through. The runtime it yields is always an int32. *)
Theorem runtime_unmarshal_accepts (Unquote : string -> option string)
    (jsonValue : string) (i : Z) :
  (Runtime.UnmarshalJSON Unquote jsonValue = Some i <->
   exists number, Unquote jsonValue = Some (number ++ " mins")%string /\
                  Http.contains " " number = false /\
                  Runtime.ParseInt32 number = Some i) /\
  (Runtime.UnmarshalJSON Unquote jsonValue = Some i -> Runtime.isInt32 i).
Proof.
  assert (Runtime.UnmarshalJSON Unquote jsonValue = Some i ->
          exists number, Unquote jsonValue = Some (number ++ " mins")%string /\
                         Http.contains " " number = false /\
                         Runtime.ParseInt32 number = Some i) as Hforward.
  { unfold Runtime.UnmarshalJSON.
    destruct (Unquote jsonValue) as [u|]; [| discriminate].
    destruct (Http.Split u " ") as [|number [|unit [|]]] eqn:E; try discriminate.
    destruct (String.eqb_spec unit "mins") as [->|]; [| discriminate].
    simpl. intros Hparse. apply Split_two in E as (-> & Hnum & _).
    exists number. repeat split; assumption. }
  split; [split; [exact Hforward |] |].
  - intros (number & Hu & Hnum & Hparse). unfold Runtime.UnmarshalJSON. rewrite Hu.
    change (number ++ " mins")%string with (number ++ String " " "mins")%string.
    rewrite Split_append by exact Hnum.
    rewrite (Split_whole " " "mins") by reflexivity. exact Hparse.
  - intros H. apply Hforward in H as (number & _ & _ & Hparse).
    eapply ParseInt32_range; eassumption.
Qed.

(** A plus sign and leading zeros pass; a number beyond the int32 range,
    a second space or another unit do not. *)
Example runtime_unmarshal_samples :
  Runtime.UnmarshalJSON Some "+007 mins" = Some 7 /\
  Runtime.UnmarshalJSON Some "-0 mins" = Some 0 /\
  Runtime.UnmarshalJSON Some "2147483648 mins" = None /\
  Runtime.UnmarshalJSON Some "-2147483648 mins" = Some (-2147483648) /\
  Runtime.UnmarshalJSON Some "102  mins" = None /\
  Runtime.UnmarshalJSON Some "102 min" = None /\
  Runtime.UnmarshalJSON Some " mins" = None /\
  Runtime.UnmarshalJSON Some "1_0 mins" = None.
Proof. repeat split. Qed.

(** ** The token handlers *)

Section TokenHandlers.

Import Tokens.

Variable d : Deps.


Lemma writeJSON_inserted status payload : inserted (writeJSON d status payload) = [].
Proof. unfold writeJSON. now destruct (writeJSONFails d status payload). Qed.

Lemma writeJSON_mailed status payload : mailed (writeJSON d status payload) = [].
Proof. unfold writeJSON. now destruct (writeJSONFails d status payload). Qed.

End TokenHandlers.


(** X19. [createAuthenticationTokenHandler] asks for a token only after the
    password has matched that of the user found for the email address: the
    token is for that user, lives 24 hours and has the authentication
    scope; there is at most one such call. *)
Theorem login_token_needs_the_password (d : Tokens.Deps) (r : Http.Request)
    (userID : Z) (ttl : Duration) (scope : string) :
  (userID, ttl, scope) ∈ Tokens.inserted (Tokens.createAuthenticationTokenHandler d r) ->
  Tokens.inserted (Tokens.createAuthenticationTokenHandler d r) = [(userID, ttl, scope)] /\
  ttl = 24 * Tokens.Hour /\ scope = Tokens.ScopeAuthentication /\
  exists input user,
    Tokens.readJSON d r = inl input /\
    Tokens.GetByEmail d (Tokens.InputEmail input) = Api.Found user /\
    Tokens.Matches d user (Tokens.InputPassword input) = inl true /\
    userID = Tokens.ID user.
Proof.
  unfold Tokens.createAuthenticationTokenHandler. cbv zeta.
  destruct (Tokens.readJSON d r) as [input|err] eqn:Hread; simpl;
    [| intros H; now apply not_elem_of_nil in H].
  destruct (negb _); simpl; [intros H; now apply not_elem_of_nil in H |].
  destruct (Tokens.GetByEmail d _) as [user| |err] eqn:Huser; simpl;
    try (intros H; now apply not_elem_of_nil in H).
  destruct (Tokens.Matches d user _) as [[|]|err] eqn:Hmatch; simpl;
    try (intros H; now apply not_elem_of_nil in H).
  assert (Tokens.inserted
            match Tokens.TokensNew d (Tokens.ID user) (24 * Tokens.Hour)
                    Tokens.ScopeAuthentication with
            | inl token => Tokens.writeJSON d Tokens.StatusCreated
                             (Tokens.AuthenticationToken token)
            | inr err => [Tokens.Respond (Tokens.ServerError err)]
            end = []) as ->.
  { destruct (Tokens.TokensNew d _ _ _); [apply writeJSON_inserted | reflexivity]. }
  intros H. apply list_elem_of_singleton in H. simplify_eq.
  repeat split. exists input, user. repeat split; assumption.
Qed.

Lemma login_token_needs_the_password_witness :
  Tokens.inserted
    (Tokens.createAuthenticationTokenHandler
       (TokenSample.deps (Tokens.mkInput "ana@example.com" "pa55word" EmptyString))
       TokenSample.post)
  = [(7, 24 * Tokens.Hour, Tokens.ScopeAuthentication)].
Proof.
  apply (login_token_needs_the_password
           (TokenSample.deps (Tokens.mkInput "ana@example.com" "pa55word" EmptyString))
           TokenSample.post 7 (24 * Tokens.Hour) Tokens.ScopeAuthentication).
  vm_compute. apply list_elem_of_here.
Defined.

(** X20. For a well-formed login request, an email address without a user
    and a wrong password for an existing user get the same answer: the
    invalid-credentials reply and nothing else. *)
Theorem login_hides_which_part_was_wrong (d : Tokens.Deps) (r : Http.Request)
    (input : Tokens.Input) :
  Tokens.readJSON d r = inl input ->
  Tokens.Valid d
    (Tokens.ValidatePasswordPlaintext d
       (Tokens.ValidateEmail d (Tokens.New d) (Tokens.InputEmail input))
       (Tokens.InputPassword input)) = true ->
  (Tokens.GetByEmail d (Tokens.InputEmail input) = Api.ErrRecordNotFound \/
   exists user, Tokens.GetByEmail d (Tokens.InputEmail input) = Api.Found user /\
                Tokens.Matches d user (Tokens.InputPassword input) = inl false) ->
  Tokens.createAuthenticationTokenHandler d r = [Tokens.Respond Tokens.InvalidCredentials].
Proof.
  intros Hread Hvalid Hwrong.
  unfold Tokens.createAuthenticationTokenHandler. cbv zeta.
  rewrite Hread, Hvalid. simpl.
  destruct Hwrong as [-> | (user & -> & ->)]; reflexivity.
Qed.

Lemma login_hides_which_part_was_wrong_witness :
  Tokens.createAuthenticationTokenHandler
    (TokenSample.deps (Tokens.mkInput "ana@example.com" "guess" EmptyString))
    TokenSample.post
  = [Tokens.Respond Tokens.InvalidCredentials].
Proof.
  apply (login_hides_which_part_was_wrong
           (TokenSample.deps (Tokens.mkInput "ana@example.com" "guess" EmptyString))
           TokenSample.post (Tokens.mkInput "ana@example.com" "guess" EmptyString)).
  - reflexivity.
  - vm_compute. reflexivity.
  - right. exists TokenSample.ana. split; reflexivity.
Defined.

(** X21. The activation mail and the password reset mail go to the address
    stored for the user found, not to the address of the request, and carry
    the token just made for that user: an activation token of three days
    for a user not yet activated, a password reset token of 45 minutes for
    an activated one. Each handler starts at most this one task. *)
Theorem token_mail_goes_to_the_stored_address (d : Tokens.Deps) (r : Http.Request)
    (to template plaintext : string) :
  ((to, template, plaintext) ∈ Tokens.mailed (Tokens.createActivationTokenHandler d r) ->
   Tokens.mailed (Tokens.createActivationTokenHandler d r) = [(to, template, plaintext)] /\
   template = "token_activation.tmpl" /\
   exists input user token,
     Tokens.readJSON d r = inl input /\
     Tokens.GetByEmail d (Tokens.InputEmail input) = Api.Found user /\
     Tokens.Activated user = false /\
     Tokens.TokensNew d (Tokens.ID user) (3 * 24 * Tokens.Hour) Tokens.ScopeActivation
     = inl token /\
     to = Tokens.Email user /\ plaintext = Tokens.Plaintext token) /\
  ((to, template, plaintext) ∈ Tokens.mailed (Tokens.createPasswordResetTokenHandler d r) ->
   Tokens.mailed (Tokens.createPasswordResetTokenHandler d r) = [(to, template, plaintext)] /\
   template = "token_password_reset.tmpl" /\
   exists input user token,
     Tokens.readJSON d r = inl input /\
     Tokens.GetByEmail d (Tokens.InputEmail input) = Api.Found user /\
     Tokens.Activated user = true /\
     Tokens.TokensNew d (Tokens.ID user) (45 * Minute) Tokens.ScopePasswordReset
     = inl token /\
     to = Tokens.Email user /\ plaintext = Tokens.Plaintext token).
Proof.
  unfold Tokens.createActivationTokenHandler, Tokens.createPasswordResetTokenHandler.
  cbv zeta.
  destruct (Tokens.readJSON d r) as [input|err] eqn:Hread; simpl;
    [| split; intros H; now apply not_elem_of_nil in H].
  destruct (negb _); simpl; [split; intros H; now apply not_elem_of_nil in H |].
  destruct (Tokens.GetByEmail d _) as [user| |err] eqn:Huser; simpl;
    try (split; intros H; now apply not_elem_of_nil in H).
  destruct (Tokens.Activated user) eqn:Hact; simpl; split;
    try (intros H; now apply not_elem_of_nil in H).
  - destruct (Tokens.TokensNew d _ _ _) as [token|err] eqn:Hnew; simpl;
      [| intros H; now apply not_elem_of_nil in H].
    rewrite writeJSON_mailed. intros H. apply list_elem_of_singleton in H.
    simplify_eq. repeat split. exists input, user, token. repeat split; assumption.
  - destruct (Tokens.TokensNew d _ _ _) as [token|err] eqn:Hnew; simpl;
      [| intros H; now apply not_elem_of_nil in H].
    rewrite writeJSON_mailed. intros H. apply list_elem_of_singleton in H.
    simplify_eq. repeat split. exists input, user, token. repeat split; assumption.
Qed.

(** The request names the address in lower case; the mail goes to the
    address as stored. *)
Lemma token_mail_goes_to_the_stored_address_witness :
  Tokens.mailed
    (Tokens.createPasswordResetTokenHandler
       (TokenSample.deps (Tokens.mkInput "ana@example.com" EmptyString EmptyString))
       TokenSample.post)
  = [("Ana@example.com"%string, "token_password_reset.tmpl"%string,
      "Y3QMGX3PJ3WLRL2YRTQGQ6KRHU"%string)].
Proof.
  apply (token_mail_goes_to_the_stored_address
           (TokenSample.deps (Tokens.mkInput "ana@example.com" EmptyString EmptyString))
           TokenSample.post).
  vm_compute. apply list_elem_of_here.
Defined.

(** X22. [updateUserPasswordHandler] works in this order and stops at the
    first failure: the user is looked up by the token under the
    password-reset scope; the record written is that user with the new
    password set; the password reset tokens of the user are deleted only
    after the update has succeeded; the 200 reply is sent only after the
    deletion has succeeded. It makes no token and starts no task. *)
Theorem password_reset_steps_in_order (d : Tokens.Deps) (r : Http.Request) :
  let acts := Tokens.updateUserPasswordHandler d r in
  Tokens.inserted acts = [] /\ Tokens.mailed acts = [] /\
  (forall user, Tokens.UpdateUser user ∈ acts ->
     exists input found,
       Tokens.readJSON d r = inl input /\
       Tokens.GetForToken d Tokens.ScopePasswordReset (Tokens.InputTokenPlaintext input)
       = Api.Found found /\
       Tokens.PasswordSet d found (Tokens.InputPassword input) = inl user) /\
  (forall scope id, Tokens.DeleteTokens scope id ∈ acts ->
     scope = Tokens.ScopePasswordReset /\
     exists user, Tokens.UpdateUser user ∈ acts /\
                  Tokens.UsersUpdate d user = Tokens.Updated /\ id = Tokens.ID user) /\
  (forall status payload, Tokens.Respond (Tokens.JSON status payload) ∈ acts ->
     status = Tokens.StatusOK /\
     exists user, Tokens.UpdateUser user ∈ acts /\
                  Tokens.UsersUpdate d user = Tokens.Updated /\
                  Tokens.DeleteAllForUser d Tokens.ScopePasswordReset (Tokens.ID user) = None).
Proof.
  unfold Tokens.updateUserPasswordHandler, Tokens.writeJSON. cbv zeta.
  destruct (Tokens.readJSON d r) as [input|err] eqn:Hread;
    [destruct (negb _);
     [| destruct (Tokens.GetForToken d _ _) as [found| |err] eqn:Hfound;
        [destruct (Tokens.PasswordSet d found _) as [user|err] eqn:Hset;
         [destruct (Tokens.UsersUpdate d user) eqn:Hupdate;
          [destruct (Tokens.DeleteAllForUser d _ _) eqn:Hdelete;
           [| destruct (Tokens.writeJSONFails d _ _)] | |] |] | |]] |];
    simpl; repeat split; intros;
    repeat match goal with
           | H : _ ∈ [] |- _ => now apply not_elem_of_nil in H
           | H : _ ∈ _ :: _ |- _ => apply elem_of_cons in H as [H|H]
           end;
    simplify_eq; try reflexivity;
    try (eexists _, _; repeat split; eassumption);
    try (eexists; repeat split;
         [apply list_elem_of_here | eassumption | try reflexivity; try eassumption]).
  all: exists user; repeat split; [apply list_elem_of_here | assumption].
Qed.

(** A valid reset token and a new password: the record is written, the
    reset tokens of the user are deleted, the 200 reply is sent. *)
Example password_reset_sample :
  Tokens.updateUserPasswordHandler
    (TokenSample.deps (Tokens.mkInput EmptyString "n3w-pa55word" "RESETRESETRESETRESETRESET1"))
    TokenSample.post
  = [Tokens.UpdateUser
       {| Tokens.ID := 7; Tokens.Email := "Ana@example.com"; Tokens.Activated := true;
          Tokens.PasswordHash := "n3w-pa55word" |};
     Tokens.DeleteTokens Tokens.ScopePasswordReset 7;
     Tokens.Respond (Tokens.JSON 200 (Tokens.Message "your password was successfully reset"))].
Proof. vm_compute. reflexivity. Qed.

Lemma password_reset_steps_in_order_witness :
  exists user,
    Tokens.UpdateUser user ∈
      Tokens.updateUserPasswordHandler
        (TokenSample.deps
           (Tokens.mkInput EmptyString "n3w-pa55word" "RESETRESETRESETRESETRESET1"))
        TokenSample.post /\
    Tokens.UsersUpdate
      (TokenSample.deps
         (Tokens.mkInput EmptyString "n3w-pa55word" "RESETRESETRESETRESETRESET1")) user
    = Tokens.Updated /\
    7 = Tokens.ID user.
Proof.
  destruct (password_reset_steps_in_order
              (TokenSample.deps
                 (Tokens.mkInput EmptyString "n3w-pa55word" "RESETRESETRESETRESETRESET1"))
              TokenSample.post) as (_ & _ & _ & Hdelete & _).
  apply (Hdelete Tokens.ScopePasswordReset 7).
  vm_compute. apply list_elem_of_further, list_elem_of_here.
Defined.

(** [serve] has failed and the logger is switched off: nothing is logged,
    the pool is not closed, the status is 1. *)
Lemma exit_status_after_serve_witness :
  (Jsonlog.mainTail (fun e => inl (Jsonlog.EntryMessage e))
     (Some "listen tcp :4000: bind: address already in use"%string) None
     (Jsonlog.mkMoment "2021-07-01T15:00:00Z" "goroutine 1 [running]")
     (Jsonlog.NewLogger Jsonlog.LevelOff)).2 = true
  <-> Some "listen tcp :4000: bind: address already in use"%string = None.
Proof.
  pose proof (exit_status_after_serve (fun e => inl (Jsonlog.EntryMessage e))
                (Some "listen tcp :4000: bind: address already in use"%string) None
                (Jsonlog.mkMoment "2021-07-01T15:00:00Z" "goroutine 1 [running]")
                (Jsonlog.NewLogger Jsonlog.LevelOff)) as H.
  destruct (Jsonlog.mainTail _ _ _ _ _) as [[l' status] closeCalled].
  apply H.
Defined.
